(** * wsbsentiment: the sentiment page of the frontend

    A shallow embedding of [src/app/page.tsx] (the [Home] component): the
    submission routine [fetchSentiment], the submit control of the form, and
    the callback that renders [data.top_comments].

    - a TypeScript [number] is an IEEE binary64 value: Rocq's primitive
      [float], compared with [PrimFloat.ltb];
    - a JavaScript string is a [string]: the octets of its UTF-8 form,
      a surrogate that is not half of a pair being written as the three
      octets ED, A0..BF, 80..BF. [includes], [===] and the case-insensitive
      regular expression of the page, whose letters are ASCII, act on such a
      string one octet at a time;
    - the asynchronous routine is a finite tree of state updates and
      suspension points ([await]), run either to completion against a
      network, or step by step by an event loop. *)

From Stdlib Require Import Bool Ascii String List ZArith Lia Floats.
Import ListNotations.

Set Warnings "-inexact-float,-register-all".
Open Scope string_scope.

(* ================================================================= *)
(** ** Strings *)

(** [s.startsWith(p)], by code units. *)
Fixpoint starts_with (p s : string) : bool :=
  match p, s with
  | EmptyString, _ => true
  | String _ _, EmptyString => false
  | String a p', String b s' => Ascii.eqb a b && starts_with p' s'
  end.

(** [s.includes(sub)]: [sub] occurs in [s] at some position. *)
Fixpoint includes (s sub : string) : bool :=
  match s with
  | EmptyString => starts_with sub EmptyString
  | String _ s' => starts_with sub s || includes s' sub
  end.

(** The [Canonicalize] operation of an [/i] regular expression without the
    [u] flag: a character is compared through its upper-case form. On a
    string of bytes only the ASCII letters move. *)
Definition canonicalize (c : ascii) : ascii :=
  let n := nat_of_ascii c in
  if (97 <=? n)%nat && (n <=? 122)%nat then ascii_of_nat (n - 32) else c.

(** A literal alternative of the pattern matched at the start of [s]. *)
Fixpoint literal_at (lit s : string) : bool :=
  match lit, s with
  | EmptyString, _ => true
  | String _ _, EmptyString => false
  | String a lit', String b s' =>
      Ascii.eqb (canonicalize a) (canonicalize b) && literal_at lit' s'
  end.

(** [/a1|a2|.../i.test(s)]: some alternative matches at some position.
    The expression has no [g] or [y] flag, so [test] keeps no position
    between calls. *)
Fixpoint regexp_test (alts : list string) (s : string) : bool :=
  match s with
  | EmptyString => existsb (fun lit => literal_at lit EmptyString) alts
  | String _ s' => existsb (fun lit => literal_at lit s) alts || regexp_test alts s'
  end.

(** The pattern of line 158, [/mod|bot/i]. *)
Definition mod_or_bot : list string := ["mod"; "bot"].

(* ================================================================= *)
(** ** The data of a response *)

Module Comment.
Record t : Type := mk {
  id : string;
  body : string;
  sentiment : float;
  score : float;
  author : string;
  created_utc : float
}.
End Comment.

Module PostData.
Record t : Type := mk {
  id : string;
  title : string;
  selftext : string;
  sentiment : float;
  score : float;
  url : string;
  num_comments : float;
  created_utc : float;
  top_comments : list Comment.t
}.
End PostData.

(* ================================================================= *)
(** ** Rendering the comments (lines 157-183) *)

(** JavaScript's [x > y] and [x < y] on numbers. *)
Definition js_gt (x y : float) : bool := PrimFloat.ltb y x.
Definition js_lt (x y : float) : bool := PrimFloat.ltb x y.

(** The constant [sentimentClass] of lines 162-167. *)
Definition sentimentClass (sentiment : float) : string :=
  if js_gt sentiment 0.1 then "bg-green-900 border-green-600"
  else if js_lt sentiment (-0.1) then "bg-red-900 border-red-600"
  else "bg-gray-800 border-gray-700".

(** The three display buckets, and the same conditional read as a bucket. *)
Inductive Bucket : Type := Positive | Negative | Neutral.

Definition classify (sentiment : float) : Bucket :=
  if js_gt sentiment 0.1 then Positive
  else if js_lt sentiment (-0.1) then Negative
  else Neutral.

Definition bucket_class (b : Bucket) : string :=
  match b with
  | Positive => "bg-green-900 border-green-600"
  | Negative => "bg-red-900 border-red-600"
  | Neutral => "bg-gray-800 border-gray-700"
  end.

(** The [<li>] element built for a comment: its key, its class, and the
    comment whose fields fill it. *)
Record ListItem : Type := {
  key : string;
  className : string;
  shown : Comment.t
}.

(** The callback passed to [data.top_comments.map]: [null] for a comment
    that is not shown, the list item otherwise. *)
Definition renderComment (comment : Comment.t) : option ListItem :=
  if regexp_test mod_or_bot (Comment.author comment) then None
  else if String.eqb (Comment.body comment) "[deleted]"
          || String.eqb (Comment.body comment) "[removed]" then None
  else Some {| key := Comment.id comment;
               className := "p-4 rounded border "
                            ++ sentimentClass (Comment.sentiment comment)
                            ++ " text-gray-300";
               shown := comment |}.

(** React renders nothing for a [null] child: the list on screen is made of
    the items that are not [null], in the order of the array. *)
Fixpoint non_null {A : Type} (children : list (option A)) : list A :=
  match children with
  | [] => []
  | None :: rest => non_null rest
  | Some a :: rest => a :: non_null rest
  end.

Definition rendered_list (top_comments : list Comment.t) : list ListItem :=
  non_null (map renderComment top_comments).

(** The comment filter: the comments for which the callback builds an item. *)
Definition retained (comment : Comment.t) : bool :=
  match renderComment comment with
  | Some _ => true
  | None => false
  end.

Definition filter (comments : list Comment.t) : list Comment.t :=
  List.filter retained comments.

(** *** What the filter is specified to drop *)

Definition to_lower (c : ascii) : ascii :=
  let n := nat_of_ascii c in
  if (65 <=? n)%nat && (n <=? 90)%nat then ascii_of_nat (n + 32) else c.

Fixpoint lowercase (s : string) : string :=
  match s with
  | EmptyString => EmptyString
  | String c s' => String (to_lower c) (lowercase s')
  end.

(** [sub] occurs in [s]. *)
Definition contains (s sub : string) : Prop :=
  exists pre post, s = pre ++ sub ++ post.

(** [sub] occurs in [s] when letter case is ignored. *)
Definition contains_ci (s sub : string) : Prop :=
  contains (lowercase s) (lowercase sub).

(** The drop rule in the words of the specification. *)
Definition noise (c : Comment.t) : Prop :=
  contains_ci (Comment.author c) "mod" \/ contains_ci (Comment.author c) "bot"
  \/ Comment.body c = "[deleted]" \/ Comment.body c = "[removed]".

(** A list obtained from another by removing elements only. *)
Inductive subsequence {A : Type} : list A -> list A -> Prop :=
| sub_nil : subsequence [] []
| sub_skip x l1 l2 : subsequence l1 l2 -> subsequence l1 (x :: l2)
| sub_keep x l1 l2 : subsequence l1 l2 -> subsequence (x :: l1) (x :: l2).

(** [x] stands before [y] in [l]. *)
Definition before {A : Type} (l : list A) (x y : A) : Prop :=
  exists l1 l2 l3, l = (l1 ++ x :: l2 ++ y :: l3)%list.

(* ================================================================= *)
(** ** Values, exceptions and promises *)

(** The values a parsed error body or a thrown value can be. A number comes
    with the decimal text [ToString] gives it, which is the engine's
    [Number::toString]. An object is the list of its own properties, as
    [JSON.parse] met them. *)
Inductive JsValue : Type :=
| JUndefined
| JNull
| JBool (b : bool)
| JNum (x : float) (text : string)
| JStr (s : string)
| JArr (items : list JsValue)
| JObj (fields : list (string * JsValue)).

(** A thrown value: an instance of [Error] with its [message], or any other
    value. *)
Inductive Thrown : Type :=
| ErrorObject (message : string)
| ThrownValue (v : JsValue).

(** [ToBoolean], which [||] tests: [undefined], [null], [false], the empty
    string, zero of either sign and NaN are falsy. *)
Definition truthy (v : JsValue) : bool :=
  match v with
  | JUndefined | JNull | JBool false | JStr EmptyString => false
  | JNum x _ => negb (PrimFloat.eqb x 0 || negb (PrimFloat.eqb x x))
  | _ => true
  end.

(** [a || b]. *)
Definition js_or (a b : JsValue) : JsValue := if truthy a then a else b.

(** The own property [name] of a parsed object: of two members with one
    name the later stands. *)
Fixpoint own_property (name : string) (fields : list (string * JsValue))
  : option JsValue :=
  match fields with
  | [] => None
  | (k, v) :: rest =>
      match own_property name rest with
      | Some w => Some w
      | None => if String.eqb k name then Some v else None
      end
  end.

(** [obj.name]: the own property, [undefined] without one. *)
Definition lookup (name : string) (fields : list (string * JsValue)) : JsValue :=
  match own_property name fields with
  | Some v => v
  | None => JUndefined
  end.

(** The [TypeError] of a conversion that finds no primitive, in V8's
    wording. *)
Definition cannot_convert : Thrown :=
  ErrorObject "Cannot convert object to primitive value".

(** [Array.prototype.join] with a comma, the elements converted from left
    to right by [element]; the first conversion that throws ends it. *)
Fixpoint join_with (element : JsValue -> Thrown + string) (l : list JsValue)
  : Thrown + string :=
  match l with
  | [] => inr ""
  | [x] => element x
  | x :: rest =>
      match element x with
      | inl e => inl e
      | inr s =>
          match join_with element rest with
          | inl e => inl e
          | inr t => inr (s ++ "," ++ t)
          end
      end
  end.

(** [ToString]. An array joins its elements with commas, [null] and
    [undefined] elements being empty. An object is "[object Object]" by the
    inherited [toString]; an own [toString] member, which no parsed value
    makes callable, hides it, and the conversion then fails, [valueOf]
    giving no primitive either. *)
Fixpoint ToString (v : JsValue) : Thrown + string :=
  match v with
  | JUndefined => inr "undefined"
  | JNull => inr "null"
  | JBool true => inr "true"
  | JBool false => inr "false"
  | JNum _ text => inr text
  | JStr s => inr s
  | JArr items =>
      join_with (fun x => match x with
                          | JUndefined | JNull => inr ""
                          | _ => ToString x
                          end) items
  | JObj fields =>
      match own_property "toString" fields with
      | Some _ => inl cannot_convert
      | None => inr "[object Object]"
      end
  end.

(** The message of the [TypeError] raised by reading a property of [null]
    or [undefined], in V8's wording. *)
Definition cannot_read (v : string) (prop : string) : Thrown :=
  ErrorObject ("Cannot read properties of " ++ v ++ " (reading '" ++ prop ++ "')").

(** [err.detail]: the property when [err] is an object that has it,
    [undefined] on any other value, a [TypeError] on [null] and
    [undefined]. *)
Definition get_detail (err : JsValue) : Thrown + JsValue :=
  match err with
  | JUndefined => inl (cannot_read "undefined" "detail")
  | JNull => inl (cannot_read "null" "detail")
  | JObj fields => inr (lookup "detail" fields)
  | _ => inr JUndefined
  end.

(** How a promise settles. *)
Inductive Settled (A : Type) : Type :=
| Fulfilled (a : A)
| Rejected (e : Thrown).
Arguments Fulfilled {A} a.
Arguments Rejected {A} e.

(** A response, by its [ok] flag, with what [res.json()] settles to. The
    body of a successful response is read at the type line 60 gives it,
    [PostData]; the body of any other response is an untyped value. The
    test [!res.ok] of line 56 is the choice between the two cases. *)
Inductive Response : Type :=
| ResOk (json : Settled PostData.t)
| ResNotOk (json : Settled JsValue).

Definition ok (res : Response) : bool :=
  match res with
  | ResOk _ => true
  | ResNotOk _ => false
  end.

(** The request of lines 51-55, by the two values the template literal
    puts in its address: the escaped reference after [url=] and the number
    after [max_comments=]. *)
Record Request : Type := {
  req_url : string;
  req_max_comments : float
}.

(* ================================================================= *)
(** ** Escaping the reference (line 52) *)

(** The characters [encodeURIComponent] copies: letters, digits and
    [- _ . ! ~ * ' ( )]. *)
Definition unreserved (c : ascii) : bool :=
  let n := nat_of_ascii c in
  ((48 <=? n)%nat && (n <=? 57)%nat)
  || ((65 <=? n)%nat && (n <=? 90)%nat)
  || ((97 <=? n)%nat && (n <=? 122)%nat)
  || existsb (Ascii.eqb c) (list_ascii_of_string "-_.!~*'()").

(** An upper-case hexadecimal digit. *)
Definition hex_digit (n : nat) : ascii :=
  if (n <? 10)%nat then ascii_of_nat (48 + n) else ascii_of_nat (55 + n).

(** The escape of one octet: [%] and two hexadecimal digits. *)
Definition percent_encode (c : ascii) : string :=
  let n := nat_of_ascii c in
  String "%" (String (hex_digit (n / 16)) (String (hex_digit (n mod 16)) "")).

(** Every unreserved character copied, every other octet escaped. *)
Fixpoint escape (s : string) : string :=
  match s with
  | EmptyString => EmptyString
  | String c s' =>
      if unreserved c then String c (escape s')
      else percent_encode c ++ escape s'
  end.

(** A surrogate that is not half of a pair: the octet ED followed by one of
    A0..BF. *)
Fixpoint lone_surrogate (s : string) : bool :=
  match s with
  | EmptyString => false
  | String a rest =>
      match rest with
      | EmptyString => false
      | String b _ =>
          ((nat_of_ascii a =? 237)%nat
           && (160 <=? nat_of_ascii b)%nat && (nat_of_ascii b <=? 191)%nat)
          || lone_surrogate rest
      end
  end.

(** The [URIError] of [encodeURIComponent], in V8's wording. *)
Definition URI_malformed : Thrown := ErrorObject "URI malformed".

(** [encodeURIComponent(s)]: a [URIError] on a string that holds a lone
    surrogate, the escaped string otherwise. *)
Definition encodeURIComponent (s : string) : Thrown + string :=
  if lone_surrogate s then inl URI_malformed else inr (escape s).

(* ================================================================= *)
(** ** The state of the component *)

Record View : Type := {
  url : string;
  maxComments : float;
  data : option PostData.t;
  loading : bool;
  error : option string
}.

(** The initial values of the five [useState] hooks (lines 32-36). *)
Definition initial_view : View :=
  {| url := ""; maxComments := 50; data := None; loading := false; error := None |}.

Inductive Update : Type :=
| SetLoading (b : bool)
| SetError (e : option string)
| SetData (d : option PostData.t).

Definition apply_update (u : Update) (v : View) : View :=
  match u with
  | SetLoading b =>
      {| url := url v; maxComments := maxComments v; data := data v;
         loading := b; error := error v |}
  | SetError e =>
      {| url := url v; maxComments := maxComments v; data := data v;
         loading := loading v; error := e |}
  | SetData d =>
      {| url := url v; maxComments := maxComments v; data := d;
         loading := loading v; error := error v |}
  end.

(** [setUrl] and [setMaxComments], called by the two inputs. *)
Definition setUrl (s : string) (v : View) : View :=
  {| url := s; maxComments := maxComments v; data := data v;
     loading := loading v; error := error v |}.

Definition setMaxComments (n : float) (v : View) : View :=
  {| url := url v; maxComments := n; data := data v;
     loading := loading v; error := error v |}.

(* ================================================================= *)
(** ** Asynchronous routines *)

(** An [async] function body: it returns, throws, updates the state and goes
    on, or suspends on a promise and resumes with how the promise settled. *)
Inductive Async (A : Type) : Type :=
| Ret (a : A)
| Throw (e : Thrown)
| Set_ (u : Update) (k : Async A)
| AwaitFetch (req : Request) (k : Settled Response -> Async A)
| AwaitJson {B : Type} (body : Settled B) (k : Settled B -> Async A).
Arguments Ret {A} a.
Arguments Throw {A} e.
Arguments Set_ {A} u k.
Arguments AwaitFetch {A} req k.
Arguments AwaitJson {A B} body k.

Fixpoint bind {A B : Type} (m : Async A) (f : A -> Async B) : Async B :=
  match m with
  | Ret a => f a
  | Throw e => Throw e
  | Set_ u k => Set_ u (bind k f)
  | AwaitFetch req k => AwaitFetch req (fun r => bind (k r) f)
  | AwaitJson body k => AwaitJson body (fun r => bind (k r) f)
  end.

Notation "x <- m ;; k" := (bind m (fun x => k))
  (at level 61, m at next level, right associativity).
Notation "m ;; k" := (bind m (fun _ => k))
  (at level 61, right associativity).

(** [try { body } catch (e) { handler }]. *)
Fixpoint try_catch {A : Type} (body : Async A) (handler : Thrown -> Async A)
  : Async A :=
  match body with
  | Ret a => Ret a
  | Throw e => handler e
  | Set_ u k => Set_ u (try_catch k handler)
  | AwaitFetch req k => AwaitFetch req (fun r => try_catch (k r) handler)
  | AwaitJson b k => AwaitJson b (fun r => try_catch (k r) handler)
  end.

(** [try { body } finally { fin }]: [fin] runs however [body] ends, and the
    way [body] ended stands unless [fin] itself throws. *)
Fixpoint try_finally {A : Type} (body : Async A) (fin : Async unit) : Async A :=
  match body with
  | Ret a => fin ;; Ret a
  | Throw e => fin ;; Throw e
  | Set_ u k => Set_ u (try_finally k fin)
  | AwaitFetch req k => AwaitFetch req (fun r => try_finally (k r) fin)
  | AwaitJson b k => AwaitJson b (fun r => try_finally (k r) fin)
  end.

Definition setLoading (b : bool) : Async unit := Set_ (SetLoading b) (Ret tt).
Definition setError (e : option string) : Async unit := Set_ (SetError e) (Ret tt).
Definition setData (d : option PostData.t) : Async unit := Set_ (SetData d) (Ret tt).

(** [await p]: the value of a fulfilled promise, the reason of a rejected
    one thrown at the [await]. *)
Definition settle {A : Type} (r : Settled A) : Async A :=
  match r with
  | Fulfilled a => Ret a
  | Rejected e => Throw e
  end.

Definition await_fetch (req : Request) : Async Response :=
  AwaitFetch req settle.

Definition await_json {B : Type} (body : Settled B) : Async B :=
  AwaitJson body settle.

(** An operation that returns or throws, run in a routine. *)
Definition lift {A : Type} (r : Thrown + A) : Async A :=
  match r with
  | inl e => Throw e
  | inr a => Ret a
  end.

Definition read_detail (err : JsValue) : Async JsValue := lift (get_detail err).

(** [new Error(v)] for a [v] that is not [undefined]: the message is the
    string form of [v], and the conversion can throw. *)
Definition new_Error (v : JsValue) : Async Thrown :=
  message <- lift (ToString v) ;; Ret (ErrorObject message).

(** [String(v)]. *)
Definition String_ (v : JsValue) : Async string := lift (ToString v).

(** The test of line 43 on the post reference. *)
Definition validate (rawInput : string) : bool := includes rawInput "reddit.com".

(** [fetchSentiment] (lines 38-71), called with the [url] and [maxComments]
    of the render whose handler runs it. *)
Definition fetchSentiment (url : string) (maxComments : float) : Async unit :=
  setLoading true ;;
  setError None ;;
  setData None ;;
  if negb (validate url) then
    setError (Some "Please enter a valid Reddit post URL") ;;
    setLoading false ;;
    Ret tt
  else
    try_finally
      (try_catch
         (encoded <- lift (encodeURIComponent url) ;;
          res <- await_fetch {| req_url := encoded; req_max_comments := maxComments |} ;;
          match res with
          | ResNotOk body =>
              err <- await_json body ;;
              detail <- read_detail err ;;
              failure <- new_Error (js_or detail (JStr "Failed to fetch sentiment")) ;;
              Throw failure
          | ResOk body =>
              json <- await_json body ;;
              setData (Some json)
          end)
         (fun e =>
            match e with
            | ErrorObject message => setError (Some message)
            | ThrownValue v => text <- String_ v ;; setError (Some text)
            end))
      (setLoading false).

(** *** A whole run against a network *)

(** How a routine ended. *)
Inductive Completion (A : Type) : Type :=
| Returned (a : A)
| Threw (e : Thrown).
Arguments Returned {A} a.
Arguments Threw {A} e.

(** What a run leaves: the state and how the routine ended, the requests it
    sent, and the state the page showed at each suspension. *)
Record Run (A : Type) : Type := {
  final : View;
  completion : Completion A;
  requests : list Request;
  frames : list View
}.
Arguments final {A} r.
Arguments completion {A} r.
Arguments requests {A} r.
Arguments frames {A} r.

Definition sent {A : Type} (req : Request) (frame : View) (r : Run A) : Run A :=
  {| final := final r; completion := completion r;
     requests := req :: requests r; frames := frame :: frames r |}.

Definition suspended {A : Type} (frame : View) (r : Run A) : Run A :=
  {| final := final r; completion := completion r;
     requests := requests r; frames := frame :: frames r |}.

(** The routine run to its end from state [v], each request answered by
    [network]. *)
Fixpoint run {A : Type} (network : Request -> Settled Response)
  (p : Async A) (v : View) : Run A :=
  match p with
  | Ret a => {| final := v; completion := Returned a; requests := []; frames := [] |}
  | Throw e => {| final := v; completion := Threw e; requests := []; frames := [] |}
  | Set_ u k => run network k (apply_update u v)
  | AwaitFetch req k => sent req v (run network (k (network req)) v)
  | AwaitJson body k => suspended v (run network (k body) v)
  end.

(** *** The event loop *)

(** A routine waiting on a promise. *)
Inductive Task : Type :=
| PendingFetch (req : Request) (k : Settled Response -> Async unit)
| PendingJson {B : Type} (body : Settled B) (k : Settled B -> Async unit).

(** A routine run until it suspends or ends. *)
Fixpoint advance (p : Async unit) (v : View) : View * option Task :=
  match p with
  | Ret _ => (v, None)
  | Throw _ => (v, None)
  | Set_ u k => advance k (apply_update u v)
  | AwaitFetch req k => (v, Some (PendingFetch req k))
  | AwaitJson body k => (v, Some (PendingJson body k))
  end.

(** The page between two events: its state, the routines waiting, and the
    requests sent so far, oldest first. *)
Record Page : Type := {
  view : View;
  waiting : list Task;
  outbound : list Request
}.

Definition initial_page : Page :=
  {| view := initial_view; waiting := []; outbound := [] |}.

(** The [disabled] attribute of the submit button (line 125),
    [loading || !url]: of all strings, [!] holds of the empty one only. *)
Definition disabled (v : View) : bool :=
  loading v || String.eqb (url v) "".

Definition request_of (t : option Task) : list Request :=
  match t with
  | Some (PendingFetch req _) => [req]
  | _ => []
  end.

Definition task_list (t : option Task) : list Task :=
  match t with
  | Some t => [t]
  | None => []
  end.

(** A submit of the form (lines 79-83). A form whose submit button is
    disabled is not submitted, by the button or by the Enter key; otherwise
    the handler calls [fetchSentiment], which runs to its first [await]. *)
Definition submit (p : Page) : Page :=
  if disabled (view p) then p
  else
    let '(v, t) := advance (fetchSentiment (url (view p)) (maxComments (view p)))
                           (view p) in
    {| view := v;
       waiting := (waiting p ++ task_list t)%list;
       outbound := (outbound p ++ request_of t)%list |}.

(** A waiting routine, standing between [l1] and [l2] in the list, resumed
    as [k] with how its promise settled. *)
Definition resume (l1 l2 : list Task) (k : Async unit) (p : Page) : Page :=
  let '(v, t) := advance k (view p) in
  {| view := v;
     waiting := (l1 ++ task_list t ++ l2)%list;
     outbound := (outbound p ++ request_of t)%list |}.

(** One event: the user edits an input or submits the form, or a promise
    settles. A [fetch] settles as the network decides, [res.json()] as the
    body of the response decides. *)
Inductive step : Page -> Page -> Prop :=
| step_url s p :
    step p {| view := setUrl s (view p); waiting := waiting p; outbound := outbound p |}
| step_max n p :
    step p {| view := setMaxComments n (view p); waiting := waiting p;
              outbound := outbound p |}
| step_submit p :
    step p (submit p)
| step_fetch_settles p l1 l2 req k (r : Settled Response) :
    waiting p = (l1 ++ PendingFetch req k :: l2)%list ->
    step p (resume l1 l2 (k r) p)
| step_json_settles p l1 l2 B (body : Settled B) k :
    waiting p = (l1 ++ PendingJson body k :: l2)%list ->
    step p (resume l1 l2 (k body) p).

Inductive reachable : Page -> Prop :=
| reach_initial : reachable initial_page
| reach_step p q : reachable p -> step p q -> reachable q.

(** The requests whose [fetch] has not settled yet. *)
Fixpoint in_flight (l : list Task) : list Request :=
  match l with
  | [] => []
  | PendingFetch req _ :: rest => req :: in_flight rest
  | PendingJson _ _ :: rest => in_flight rest
  end.

(** Starting with the loading flag [ld], the routine [p] suspends only while
    the flag is set. *)
Fixpoint loading_while_waiting {A : Type} (p : Async A) (ld : bool) : Prop :=
  match p with
  | Ret _ => True
  | Throw _ => True
  | Set_ (SetLoading b) k => loading_while_waiting k b
  | Set_ _ k => loading_while_waiting k ld
  | AwaitFetch _ k => ld = true /\ forall r, loading_while_waiting (k r) ld
  | AwaitJson body k => ld = true /\ loading_while_waiting (k body) ld
  end.

Definition task_ok (t : Task) : Prop :=
  match t with
  | PendingFetch _ k => forall r, loading_while_waiting (k r) true
  | PendingJson body k => loading_while_waiting (k body) true
  end.

(** The invariant of the event loop: at most one routine waits, every
    waiting routine is safe to resume, and the loading flag is up while one
    waits. *)
Definition page_ok (p : Page) : Prop :=
  Forall task_ok (waiting p)
  /\ (List.length (waiting p) <= 1)%nat
  /\ (waiting p <> [] -> loading (view p) = true).

(** The value of a hexadecimal digit, and the octet an escape stands for. *)
Definition hex_value (c : ascii) : nat :=
  let n := nat_of_ascii c in
  if (n <? 58)%nat then n - 48 else n - 55.

Definition percent_decode (s : string) : ascii :=
  match s with
  | String _ (String h (String l _)) => ascii_of_nat (16 * hex_value h + hex_value l)
  | _ => Ascii.zero
  end.

Fixpoint all_unreserved (s : string) : bool :=
  match s with
  | EmptyString => true
  | String c s' => unreserved c && all_unreserved s'
  end.

(* ================================================================= *)
(** ** What the page shows (lines 73-189) *)

(** The section drawn for [data] (lines 138-187), by the values that fill
    it: a number stands for the text printed for it. *)
Record ResultSection : Type := {
  heading : string;
  score_shown : float;
  comments_shown : float;
  sentiment_shown : float;
  text_shown : string;
  items : list ListItem
}.

(** [data.selftext || "(No text)"]. *)
Definition selftext_or_default (selftext : string) : string :=
  if String.eqb selftext "" then "(No text)" else selftext.

Definition render_result (d : PostData.t) : ResultSection :=
  {| heading := PostData.title d;
     score_shown := PostData.score d;
     comments_shown := PostData.num_comments d;
     sentiment_shown := PostData.sentiment d;
     text_shown := selftext_or_default (PostData.selftext d);
     items := rendered_list (PostData.top_comments d) |}.

(** The parts of the page that depend on the state: the two inputs, the
    button, the alert of lines 132-136 and the section of lines 138-187. *)
Record Screen : Type := {
  url_value : string;
  max_value : float;
  button_disabled : bool;
  button_label : string;
  alert : option string;
  result : option ResultSection
}.

(** [error && <p role="alert">{error}</p>]: nothing for [null], and for the
    empty string, which [&&] returns as it is and React draws as nothing. *)
Definition render_alert (error : option string) : option string :=
  match error with
  | Some message => if String.eqb message "" then None else Some message
  | None => None
  end.

Definition render (v : View) : Screen :=
  {| url_value := url v;
     max_value := maxComments v;
     button_disabled := disabled v;
     button_label := if loading v then "Analyzing..." else "Analyze";
     alert := render_alert (error v);
     result := option_map render_result (data v) |}.

(** The order of the buckets, and the bucket of the opposite number. *)
Definition rank (b : Bucket) : nat :=
  match b with
  | Negative => 0
  | Neutral => 1
  | Positive => 2
  end.

Definition mirror (b : Bucket) : Bucket :=
  match b with
  | Negative => Positive
  | Neutral => Neutral
  | Positive => Negative
  end.

(* ================================================================= *)
(** ** The shapes of the page *)

(** While a routine waits: the flag up, no data, no error. *)
Definition loading_shape (v : View) : Prop :=
  loading v = true /\ data v = None /\ error v = None.

(** While none waits: the flag down, and not both data and an error. *)
Definition rest_shape (v : View) : Prop :=
  loading v = false /\ (data v = None \/ error v = None).

(** Resumed with the flag [ld], the data [d] and the error [e], the routine
    sends no request, waits only in the loading shape and ends in the rest
    shape. *)
Fixpoint resumes_well {A : Type} (p : Async A)
  (ld : bool) (d : option PostData.t) (e : option string) : Prop :=
  match p with
  | Ret _ => ld = false /\ (d = None \/ e = None)
  | Throw _ => ld = false /\ (d = None \/ e = None)
  | Set_ (SetLoading b) k => resumes_well k b d e
  | Set_ (SetError e') k => resumes_well k ld d e'
  | Set_ (SetData d') k => resumes_well k ld d' e
  | AwaitFetch _ _ => False
  | AwaitJson body k =>
      (ld = true /\ d = None /\ e = None) /\ resumes_well (k body) ld d e
  end.

(** A request made for a reference that passed the test of line 43. *)
Definition from_accepted_reference (req : Request) : Prop :=
  exists url, validate url = true /\ encodeURIComponent url = inr (req_url req).

Definition task_good (t : Task) : Prop :=
  match t with
  | PendingFetch req k => forall r, resumes_well (k r) true None None
  | PendingJson body k => resumes_well (k body) true None None
  end.

Definition page_shape (p : Page) : Prop :=
  Forall from_accepted_reference (outbound p)
  /\ match waiting p with
     | [] => rest_shape (view p)
     | [t] => loading_shape (view p) /\ task_good t
     | _ => False
     end.

(** The page with the text of the URL input replaced. *)
Definition type_url (s : string) (p : Page) : Page :=
  {| view := setUrl s (view p); waiting := waiting p; outbound := outbound p |}.

(* ================================================================= *)
(** * Properties *)

(** ** Substrings *)

Lemma append_eq_empty (s t : string) : s ++ t = "" -> s = "" /\ t = "".
Proof. destruct s; simpl; [auto | discriminate]. Qed.

Lemma starts_with_spec (p s : string) :
  starts_with p s = true <-> exists t, s = p ++ t.
Proof.
  revert s; induction p as [|a p IH]; intros s; simpl.
  - split; [intros _; now exists s | reflexivity].
  - destruct s as [|b s].
    + split; [discriminate | intros [t H]; discriminate].
    + rewrite andb_true_iff, Ascii.eqb_eq, IH. split.
      * intros [-> [t ->]]. now exists t.
      * intros [t H]. injection H as -> ->. split; [reflexivity | now exists t].
Qed.

Lemma contains_empty (sub : string) :
  contains "" sub <-> exists t, "" = sub ++ t.
Proof.
  split.
  - intros (pre & post & H). symmetry in H.
    apply append_eq_empty in H as [_ H]. now exists post.
  - intros [t H]. now exists "", t.
Qed.

Lemma contains_cons (c : ascii) (s sub : string) :
  contains (String c s) sub <-> (exists t, String c s = sub ++ t) \/ contains s sub.
Proof.
  split.
  - intros (pre & post & H). destruct pre as [|a pre]; simpl in H.
    + left. now exists post.
    + right. injection H as _ H. now exists pre, post.
  - intros [[t H] | (pre & post & H)].
    + now exists "", t.
    + exists (String c pre), post. simpl. now rewrite H.
Qed.

Lemma includes_spec (s sub : string) :
  includes s sub = true <-> contains s sub.
Proof.
  induction s as [|c s IH]; simpl.
  - now rewrite contains_empty, starts_with_spec.
  - now rewrite contains_cons, orb_true_iff, starts_with_spec, IH.
Qed.

(** ** The regular expression *)

Lemma to_lower_canonicalize (a : ascii) : to_lower (canonicalize a) = to_lower a.
Proof. destruct a as [[] [] [] [] [] [] [] []]; reflexivity. Qed.

Lemma canonicalize_to_lower (a : ascii) : canonicalize (to_lower a) = canonicalize a.
Proof. destruct a as [[] [] [] [] [] [] [] []]; reflexivity. Qed.

Lemma same_letter (a b : ascii) :
  canonicalize a = canonicalize b <-> to_lower a = to_lower b.
Proof.
  split; intros H.
  - now rewrite <- (to_lower_canonicalize a), H, to_lower_canonicalize.
  - now rewrite <- (canonicalize_to_lower a), H, canonicalize_to_lower.
Qed.

Lemma literal_at_spec (lit s : string) :
  literal_at lit s = true <-> starts_with (lowercase lit) (lowercase s) = true.
Proof.
  revert s; induction lit as [|a lit IH]; intros [|b s]; simpl; try tauto.
  now rewrite !andb_true_iff, !Ascii.eqb_eq, same_letter, IH.
Qed.

Lemma regexp_test_spec (alts : list string) (s : string) :
  regexp_test alts s = true
  <-> exists lit, In lit alts /\ contains_ci s lit.
Proof.
  unfold contains_ci. induction s as [|c s IH]; simpl.
  - rewrite existsb_exists. split; intros (lit & Hin & H); exists lit; split; auto.
    + now apply contains_empty, starts_with_spec, (literal_at_spec lit "").
    + now apply (literal_at_spec lit ""), starts_with_spec, contains_empty.
  - rewrite orb_true_iff, existsb_exists, IH. split.
    + intros [(lit & Hin & H) | (lit & Hin & H)]; exists lit; split; auto;
        apply contains_cons; [left | now right].
      now apply starts_with_spec, (literal_at_spec lit (String c s)).
    + intros (lit & Hin & H). apply contains_cons in H as [H | H].
      * left. exists lit. split; auto.
        now apply (literal_at_spec lit (String c s)), starts_with_spec.
      * right. now exists lit.
Qed.

Lemma mod_or_bot_spec (author : string) :
  regexp_test mod_or_bot author = true
  <-> contains_ci author "mod" \/ contains_ci author "bot".
Proof.
  rewrite regexp_test_spec. unfold mod_or_bot. split.
  - intros (lit & [<- | [<- | []]] & H); auto.
  - intros [H | H]; [exists "mod" | exists "bot"]; simpl; auto.
Qed.

(** ** The comment filter *)

Lemma retained_spec (c : Comment.t) : retained c = false <-> noise c.
Proof.
  unfold retained, renderComment, noise.
  pose proof (mod_or_bot_spec (Comment.author c)) as Hre.
  rewrite <- !String.eqb_eq.
  destruct (regexp_test mod_or_bot (Comment.author c));
    destruct (String.eqb (Comment.body c) "[deleted]");
    destruct (String.eqb (Comment.body c) "[removed]"); simpl;
    intuition congruence.
Qed.

Lemma retained_true (c : Comment.t) : retained c = true <-> ~ noise c.
Proof.
  rewrite <- retained_spec. destruct (retained c); split; congruence.
Qed.

Lemma subsequence_filter {A : Type} (f : A -> bool) (l : list A) :
  subsequence (List.filter f l) l.
Proof.
  induction l as [|x l IH]; simpl.
  - constructor.
  - destruct (f x); now constructor.
Qed.

Lemma subsequence_app {A : Type} (l1 l2 : list A) :
  subsequence l1 l2 ->
  forall a b, l1 = (a ++ b)%list ->
  exists a' b', l2 = (a' ++ b')%list /\ subsequence a a' /\ subsequence b b'.
Proof.
  induction 1 as [|x l1 l2 H IH|x l1 l2 H IH]; intros a b E.
  - symmetry in E. apply app_eq_nil in E as [-> ->].
    exists [], []. repeat split; constructor.
  - destruct (IH a b E) as (a' & b' & -> & Ha & Hb).
    exists (x :: a'), b'. repeat split; auto. now constructor.
  - destruct a as [|y a]; simpl in E.
    + subst b. exists [], (x :: l2). repeat split; now constructor.
    + injection E as <- E. destruct (IH a b E) as (a' & b' & -> & Ha & Hb).
      exists (x :: a'), b'. repeat split; auto. now constructor.
Qed.

Lemma subsequence_cons_inv {A : Type} (x : A) (l1 l2 : list A) :
  subsequence (x :: l1) l2 ->
  exists a b, l2 = (a ++ x :: b)%list /\ subsequence l1 b.
Proof.
  remember (x :: l1) as l eqn:E. intros H; revert x l1 E.
  induction H as [|y l1' l2 H IH|y l1' l2 H IH]; intros x l1 E.
  - discriminate.
  - destruct (IH x l1 E) as (a & b & -> & Hb). now exists (y :: a), b.
  - injection E as -> ->. now exists [], l2.
Qed.

Lemma subsequence_before {A : Type} (l1 l2 : list A) (x y : A) :
  subsequence l1 l2 -> before l1 x y -> before l2 x y.
Proof.
  intros H (a & b & c & E).
  destruct (subsequence_app _ _ H _ _ E) as (a' & r & -> & _ & Hr).
  apply subsequence_cons_inv in Hr as (p & q & -> & Hq).
  destruct (subsequence_app _ _ Hq _ _ eq_refl) as (b' & r' & -> & _ & Hr').
  apply subsequence_cons_inv in Hr' as (p' & q' & -> & _).
  exists (a' ++ p)%list, (b' ++ p')%list, q'.
  now rewrite <- !app_assoc.
Qed.

Lemma rendered_list_filter (comments : list Comment.t) :
  map shown (rendered_list comments) = filter comments.
Proof.
  unfold rendered_list, filter, retained.
  induction comments as [|c cs IH]; simpl; [reflexivity|].
  destruct (renderComment c) as [li|] eqn:E; simpl; [|exact IH].
  rewrite IH. f_equal. unfold renderComment in E.
  destruct (regexp_test _ _); [discriminate|].
  destruct (_ || _); [discriminate|]. now injection E as <-.
Qed.

(** ** The classifier *)

Lemma sentimentClass_classify (x : float) :
  sentimentClass x = bucket_class (classify x).
Proof.
  unfold sentimentClass, classify.
  destruct (js_gt x 0.1); [reflexivity|]. now destruct (js_lt x (-0.1)).
Qed.

(** The four constants the comparisons below meet, as sign, mantissa and
    exponent: [0.1] is the binary64 number nearest to one tenth. *)
Lemma Prim2SF_tenth : Prim2SF 0.1 = S754_finite false 7205759403792794 (-56).
Proof. reflexivity. Qed.

Lemma Prim2SF_minus_tenth : Prim2SF (-0.1) = S754_finite true 7205759403792794 (-56).
Proof. reflexivity. Qed.

Lemma Prim2SF_one : Prim2SF 1 = S754_finite false 4503599627370496 (-52).
Proof. reflexivity. Qed.

Lemma Prim2SF_minus_one : Prim2SF (-1) = S754_finite true 4503599627370496 (-52).
Proof. reflexivity. Qed.

Ltac float_cases x :=
  unfold js_gt, js_lt; rewrite !ltb_spec;
  rewrite ?Prim2SF_tenth, ?Prim2SF_minus_tenth, ?Prim2SF_one, ?Prim2SF_minus_one;
  destruct (Prim2SF x) as [s|s| |s m e];
  try destruct s; cbv beta iota delta [SFltb SFcompare];
  try discriminate; try reflexivity.

(** A number above [0.1] is not below [-0.1]. *)
Lemma gt_not_lt (x : float) : js_gt x 0.1 = true -> js_lt x (-0.1) = false.
Proof. float_cases x. Qed.

Lemma lt_not_gt (x : float) : js_lt x (-0.1) = true -> js_gt x 0.1 = false.
Proof.
  intros H. destruct (js_gt x 0.1) eqn:E; [|reflexivity].
  apply gt_not_lt in E. congruence.
Qed.

(** A number above [1] is above [0.1]. *)
Lemma gt_1_gt (x : float) : js_gt x 1 = true -> js_gt x 0.1 = true.
Proof.
  float_cases x.
  destruct (Z.compare_spec (-52) e) as [<-|H|H]; try discriminate;
    intros _; [reflexivity|].
  destruct (Z.compare_spec (-56) e) as [E|E|E]; try reflexivity; lia.
Qed.

(** A number below [-1] is below [-0.1]. *)
Lemma lt_m1_lt (x : float) : js_lt x (-1) = true -> js_lt x (-0.1) = true.
Proof.
  float_cases x.
  destruct (Z.compare_spec e (-52)) as [->|H|H]; try discriminate;
    intros _; [reflexivity|].
  destruct (Z.compare_spec e (-56)) as [E|E|E]; try reflexivity; lia.
Qed.

(** ** The comment filter and the classifier: the stated properties *)

(** C3. For every number, [classify] is [Positive] exactly when the number
    is above [0.1], [Negative] exactly when it is below [-0.1], and
    [Neutral] exactly when it is neither; the two thresholds themselves are
    [Neutral]. The class of the list item is the class of that bucket. *)
Theorem classify_rule (sentiment : float) :
  (classify sentiment = Positive <-> js_gt sentiment 0.1 = true)
  /\ (classify sentiment = Negative <-> js_lt sentiment (-0.1) = true)
  /\ (classify sentiment = Neutral
      <-> js_gt sentiment 0.1 = false /\ js_lt sentiment (-0.1) = false)
  /\ classify 0.1 = Neutral
  /\ classify (-0.1) = Neutral
  /\ sentimentClass sentiment = bucket_class (classify sentiment).
Proof.
  assert (Hcases :
    (js_gt sentiment 0.1 = true /\ js_lt sentiment (-0.1) = false
     /\ classify sentiment = Positive)
    \/ (js_gt sentiment 0.1 = false /\ js_lt sentiment (-0.1) = true
        /\ classify sentiment = Negative)
    \/ (js_gt sentiment 0.1 = false /\ js_lt sentiment (-0.1) = false
        /\ classify sentiment = Neutral)).
  { unfold classify. destruct (js_gt sentiment 0.1) eqn:Hg.
    - left. auto using gt_not_lt.
    - destruct (js_lt sentiment (-0.1)); auto. }
  split; [|split; [|split; [|split; [|split]]]].
  - destruct Hcases as [(Hg & Hl & Hc)|[(Hg & Hl & Hc)|(Hg & Hl & Hc)]];
      rewrite Hg, Hc; split; congruence.
  - destruct Hcases as [(Hg & Hl & Hc)|[(Hg & Hl & Hc)|(Hg & Hl & Hc)]];
      rewrite Hl, Hc; split; congruence.
  - destruct Hcases as [(Hg & Hl & Hc)|[(Hg & Hl & Hc)|(Hg & Hl & Hc)]];
      rewrite Hg, Hl, Hc; intuition congruence.
  - reflexivity.
  - reflexivity.
  - apply sentimentClass_classify.
Qed.

(** The values the specification lists. *)
Example classify_examples :
  classify 0.15 = Positive /\ classify (-0.2) = Negative /\ classify 0.05 = Neutral.
Proof. repeat split. Qed.

(** C10. The conditional of lines 162-167 needs nothing of its argument:
    for every number, of any size, it yields exactly one of the three
    classes, the class of the bucket [classify] gives; a number above [1]
    gets the class of [Positive] and a number below [-1] the class of
    [Negative]; and the item of a comment that is shown carries that class.
    No case is left out and none fails. *)
Theorem classify_total (sentiment : float) :
  ((sentimentClass sentiment = "bg-green-900 border-green-600"
    /\ classify sentiment = Positive)
   \/ (sentimentClass sentiment = "bg-red-900 border-red-600"
       /\ classify sentiment = Negative)
   \/ (sentimentClass sentiment = "bg-gray-800 border-gray-700"
       /\ classify sentiment = Neutral))
  /\ (js_gt sentiment 1 = true ->
      sentimentClass sentiment = "bg-green-900 border-green-600"
      /\ classify sentiment = Positive)
  /\ (js_lt sentiment (-1) = true ->
      sentimentClass sentiment = "bg-red-900 border-red-600"
      /\ classify sentiment = Negative)
  /\ (forall comment,
        Comment.sentiment comment = sentiment -> retained comment = true ->
        exists item,
          renderComment comment = Some item
          /\ className item
             = "p-4 rounded border " ++ bucket_class (classify sentiment)
               ++ " text-gray-300").
Proof.
  split; [|split; [|split]].
  - unfold sentimentClass, classify.
    destruct (js_gt sentiment 0.1); [now left|].
    destruct (js_lt sentiment (-0.1)); [right; now left | right; now right].
  - intros H. unfold sentimentClass, classify. now rewrite (gt_1_gt _ H).
  - intros H. apply lt_m1_lt in H. unfold sentimentClass, classify.
    now rewrite (lt_not_gt _ H), H.
  - intros comment Hs Hr. unfold retained in Hr.
    destruct (renderComment comment) as [item|] eqn:E; [|discriminate].
    exists item. split; [reflexivity|].
    unfold renderComment in E.
    destruct (regexp_test _ _); [discriminate|].
    destruct (_ || _); [discriminate|].
    injection E as <-. simpl. now rewrite Hs, sentimentClass_classify.
Qed.

Lemma classify_total_witness :
  (sentimentClass 2.5 = "bg-green-900 border-green-600" /\ classify 2.5 = Positive)
  /\ (sentimentClass (-3) = "bg-red-900 border-red-600" /\ classify (-3) = Negative)
  /\ (sentimentClass infinity = "bg-green-900 border-green-600"
      /\ classify infinity = Positive)
  /\ (sentimentClass neg_infinity = "bg-red-900 border-red-600"
      /\ classify neg_infinity = Negative).
Proof.
  split; [|split; [|split]].
  - apply (proj1 (proj2 (classify_total 2.5))). reflexivity.
  - apply (proj1 (proj2 (proj2 (classify_total (-3))))). reflexivity.
  - apply (proj1 (proj2 (classify_total infinity))). reflexivity.
  - apply (proj1 (proj2 (proj2 (classify_total neg_infinity)))). reflexivity.
Defined.

(** A value that is not a number of any size is [Neutral]. *)
Example classify_nan : classify nan = Neutral.
Proof. reflexivity. Qed.

(** C4. A comment is dropped if and only if its author contains "mod" or
    "bot" in any letter case, or its body is exactly "[deleted]" or
    "[removed]"; every other comment of the sequence is retained. *)
Theorem filter_drops_noise (comments : list Comment.t) (c : Comment.t) :
  (renderComment c = None <-> noise c)
  /\ (In c (filter comments) <-> In c comments /\ ~ noise c)
  /\ (noise c -> filter (c :: comments) = filter comments)
  /\ (~ noise c -> filter (c :: comments) = c :: filter comments).
Proof.
  split; [|split; [|split]].
  - split; intros H.
    + apply retained_spec. unfold retained. now rewrite H.
    + apply retained_spec in H. unfold retained in H.
      now destruct (renderComment c).
  - split.
    + intros H. apply filter_In in H as [Hin H].
      split; [assumption | now apply retained_true].
    + intros [Hin Hn]. apply filter_In.
      split; [assumption | now apply retained_true].
  - intros H. apply retained_spec in H. unfold filter. simpl. now rewrite H.
  - intros H. apply retained_true in H. unfold filter. simpl. now rewrite H.
Qed.

Lemma filter_drops_noise_witness :
  let moderator := Comment.mk "c1" "Welcome" 0 1 "AutoModerator" 0 in
  let gone := Comment.mk "c2" "[deleted]" 0 1 "trader42" 0 in
  let kept := Comment.mk "c3" "To the moon" 0.5 7 "trader42" 0 in
  filter [moderator; gone; kept] = [kept].
Proof.
  intros moderator gone kept.
  rewrite (proj1 (proj2 (proj2 (filter_drops_noise [gone; kept] moderator)))).
  - rewrite (proj1 (proj2 (proj2 (filter_drops_noise [kept] gone)))).
    + rewrite (proj2 (proj2 (proj2 (filter_drops_noise [] kept)))).
      * reflexivity.
      * intros H. apply retained_spec in H. discriminate H.
    + apply retained_spec. reflexivity.
  - apply retained_spec. reflexivity.
Defined.

(** C5. The filtered sequence is a subsequence of the input: elements are
    removed, none is moved, and two retained comments stand in the order
    they had in [top_comments]. The list on screen is this sequence. *)
Theorem filter_preserves_order (comments : list Comment.t) :
  subsequence (filter comments) comments
  /\ (forall x y, before (filter comments) x y -> before comments x y)
  /\ map shown (rendered_list comments) = filter comments.
Proof.
  split; [|split].
  - apply subsequence_filter.
  - intros x y. apply subsequence_before, subsequence_filter.
  - apply rendered_list_filter.
Qed.

(** C9. Filtering a filtered sequence changes nothing. *)
Theorem filter_idempotent (comments : list Comment.t) :
  filter (filter comments) = filter comments.
Proof.
  unfold filter. induction comments as [|c cs IH]; simpl; [reflexivity|].
  destruct (retained c) eqn:E; simpl; [|exact IH]. now rewrite E, IH.
Qed.

(** The end-to-end example of the specification: of the comments by
    "ModBot" and by "trader42", one item is shown, in the class of
    [Positive]. *)
Example rendered_example :
  let m := Comment.mk "c1" "Rules" 0 1 "ModBot" 0 in
  let t := Comment.mk "c2" "Calls" 0.5 3 "trader42" 0 in
  rendered_list [m; t]
  = [{| key := "c2";
        className := "p-4 rounded border " ++ bucket_class Positive ++ " text-gray-300";
        shown := t |}].
Proof. reflexivity. Qed.

(** ** Runs of [fetchSentiment] *)

(** Whatever the protected body does, and however it ends, a run of
    [try { body } finally { setLoading(false) }] ends with the flag down. *)
Lemma finally_clears_loading {A : Type} network (body : Async A) (v : View) :
  loading (final (run network (try_finally body (setLoading false)) v)) = false.
Proof.
  revert v; induction body as [a|e|u k IH|req k IH|B b k IH]; intros v; simpl; auto.
Qed.

Lemma join_with_throws (element : JsValue -> Thrown + string) (l : list JsValue)
  (e : Thrown) :
  Forall (fun x => forall e', element x = inl e' -> e' = cannot_convert) l ->
  join_with element l = inl e -> e = cannot_convert.
Proof.
  induction 1 as [|x rest Hx Hrest IH]; simpl; [discriminate|].
  destruct rest as [|y rest']; [apply Hx|].
  destruct (element x) as [e1|s1] eqn:E1.
  - intros H. injection H as <-. now apply Hx.
  - destruct (join_with element (y :: rest')) as [e2|s2]; [|discriminate].
    intros H. injection H as <-. now apply IH.
Qed.

(** A conversion to a string throws one thing only. *)
Lemma ToString_throws (v : JsValue) (e : Thrown) :
  ToString v = inl e -> e = cannot_convert.
Proof.
  revert v e. fix IH 1. intros [| |b|x text|s|items|fields] e; simpl.
  - discriminate.
  - discriminate.
  - destruct b; discriminate.
  - discriminate.
  - discriminate.
  - apply join_with_throws.
    induction items as [|x rest IHrest]; constructor; [|exact IHrest].
    intros e' H. apply (IH x). destruct x; try discriminate H; exact H.
  - destruct (own_property "toString" fields); [|discriminate].
    intros H. now injection H as <-.
Qed.

Ltac to_string_cases :=
  repeat match goal with
  | |- context [ToString ?v] =>
      let H := fresh "Hstr" in
      let e := fresh "e" in
      destruct (ToString v) as [e|?text] eqn:H;
      [ pose proof (ToString_throws _ _ H); subst e; unfold cannot_convert | ];
      simpl
  end.

Ltac run_cases network :=
  unfold fetchSentiment, encodeURIComponent, new_Error, String_, read_detail, lift;
  simpl;
  match goal with |- context [validate ?u] => destruct (validate u) eqn:?Hvalid end;
  simpl;
  [ match goal with |- context [lone_surrogate ?u] =>
      destruct (lone_surrogate u) eqn:?Hlone end;
    simpl;
    [ | match goal with |- context [network ?r] =>
          destruct (network r) as [[[json|e]|[err|e]]|e] eqn:?Hnet end;
        simpl;
        try match goal with err : JsValue |- _ => destruct err; simpl end;
        try match goal with |- context [truthy ?d] =>
              unfold js_or; destruct (truthy d) eqn:?Htruthy; simpl end;
        try match goal with e : Thrown |- _ => destruct e; simpl end;
        to_string_cases ]
  | ].

Lemma validate_spec (rawInput : string) :
  validate rawInput = true <-> contains rawInput "reddit.com".
Proof. apply includes_spec. Qed.

Lemma not_validate (rawInput : string) :
  ~ contains rawInput "reddit.com" -> validate rawInput = false.
Proof.
  rewrite <- validate_spec. now destruct (validate rawInput).
Qed.

(** C1 (amended). [validate] accepts a string if and only if it contains
    "reddit.com"; for a string that does not, the submission sets the error
    "Please enter a valid Reddit post URL", sends no request and never
    suspends. *)
Theorem validate_gates_request (rawInput : string) (maxComments : float)
  (network : Request -> Settled Response) (v : View) :
  (validate rawInput = true <-> contains rawInput "reddit.com")
  /\ (~ contains rawInput "reddit.com" ->
      let r := run network (fetchSentiment rawInput maxComments) v in
      error (final r) = Some "Please enter a valid Reddit post URL"
      /\ requests r = [] /\ frames r = []
      /\ data (final r) = None /\ loading (final r) = false).
Proof.
  split; [apply validate_spec|].
  intros H. apply not_validate in H. unfold fetchSentiment. simpl.
  rewrite H. simpl. repeat split.
Qed.

Lemma validate_gates_request_witness :
  let r := run (fun _ => Rejected (ErrorObject "Failed to fetch"))
               (fetchSentiment "https://example.com/post/1" 50) initial_view in
  error (final r) = Some "Please enter a valid Reddit post URL" /\ requests r = [].
Proof.
  intros r.
  assert (H : ~ contains "https://example.com/post/1" "reddit.com").
  { intros H. apply validate_spec in H. discriminate H. }
  destruct (proj2 (validate_gates_request "https://example.com/post/1" 50
                     (fun _ => Rejected (ErrorObject "Failed to fetch"))
                     initial_view) H) as (He & Hr & _).
  split; assumption.
Defined.

(** C1, as stated, fails on the message: the error set for a rejected
    reference is not "invalid post reference". *)
Lemma validation_message_differs :
  let r := run (fun _ => Rejected (ErrorObject "Failed to fetch"))
               (fetchSentiment "https://example.com/post/1" 50) initial_view in
  validate "https://example.com/post/1" = false
  /\ error (final r) = Some "Please enter a valid Reddit post URL"
  /\ error (final r) <> Some "invalid post reference".
Proof. repeat split. discriminate. Qed.

(** C2 (amended). When the reference can be escaped and the request
    resolves with a status that is not a success, the run ends with the
    flag down, no data, and an error message that is: the [detail] of the
    parsed body when it is a non-empty string; the string form of any other
    truthy [detail], or the message of the [TypeError] when it has none;
    "Failed to fetch sentiment" when the parsed body has no [detail] or a
    falsy one; the message of the [TypeError] when the body is [null]; and,
    when the body cannot be parsed, the message of the parse failure
    itself. *)
Theorem error_response_message (url encoded : string) (maxComments : float)
  (network : Request -> Settled Response) (v : View) (body : Settled JsValue) :
  validate url = true ->
  encodeURIComponent url = inr encoded ->
  network {| req_url := encoded; req_max_comments := maxComments |}
    = Fulfilled (ResNotOk body) ->
  let r := run network (fetchSentiment url maxComments) v in
  loading (final r) = false /\ data (final r) = None
  /\ (forall fields d,
        body = Fulfilled (JObj fields) -> lookup "detail" fields = JStr d ->
        d <> "" -> error (final r) = Some d)
  /\ (forall fields text,
        body = Fulfilled (JObj fields) -> truthy (lookup "detail" fields) = true ->
        ToString (lookup "detail" fields) = inr text ->
        error (final r) = Some text)
  /\ (forall fields e,
        body = Fulfilled (JObj fields) -> truthy (lookup "detail" fields) = true ->
        ToString (lookup "detail" fields) = inl e ->
        error (final r) = Some "Cannot convert object to primitive value")
  /\ (forall fields,
        body = Fulfilled (JObj fields) ->
        own_property "detail" fields = None
        \/ truthy (lookup "detail" fields) = false ->
        error (final r) = Some "Failed to fetch sentiment")
  /\ (forall err,
        body = Fulfilled err ->
        err <> JUndefined -> err <> JNull -> (forall fields, err <> JObj fields) ->
        error (final r) = Some "Failed to fetch sentiment")
  /\ (body = Fulfilled JNull ->
      error (final r) = Some "Cannot read properties of null (reading 'detail')")
  /\ (forall message,
        body = Rejected (ErrorObject message) -> error (final r) = Some message).
Proof.
  intros Hv Henc Hnet.
  unfold encodeURIComponent in Henc.
  destruct (lone_surrogate url) eqn:Hlone; [discriminate|]. injection Henc as <-.
  unfold fetchSentiment, encodeURIComponent, new_Error, String_, read_detail, lift.
  simpl. rewrite Hv, Hlone. simpl. rewrite Hnet. simpl.
  destruct body as [err|e]; simpl.
  - destruct err as [| |b|x text|s|items|fields]; simpl.
    1-6: split; [reflexivity|]; split; [reflexivity|];
         repeat split; intros; try discriminate; try congruence; reflexivity.
    unfold js_or.
    assert (Habsent : own_property "detail" fields = None ->
                      truthy (lookup "detail" fields) = false).
    { intros H. unfold lookup. now rewrite H. }
    destruct (truthy (lookup "detail" fields)) eqn:Ht; simpl.
    + destruct (ToString (lookup "detail" fields)) as [e|text] eqn:Hs; simpl.
      * pose proof (ToString_throws _ _ Hs) as ->. simpl.
        split; [reflexivity|]; split; [reflexivity|].
        split; [|split; [|split; [|split; [|split; [|split]]]]]; intros;
          try discriminate;
          try match goal with H : Fulfilled _ = Fulfilled _ |- _ =>
                injection H as <- end.
        -- match goal with H : lookup _ _ = JStr _ |- _ => rewrite H in Hs end.
           discriminate Hs.
        -- congruence.
        -- reflexivity.
        -- match goal with H : _ \/ _ |- _ => destruct H as [Hd | Hd] end;
             [apply Habsent in Hd; discriminate Hd | congruence].
        -- exfalso. match goal with H : forall f, _ <> JObj f |- _ =>
                      apply (H fields); reflexivity end.
      * split; [reflexivity|]; split; [reflexivity|].
        split; [|split; [|split; [|split; [|split; [|split]]]]]; intros;
          try discriminate;
          try match goal with H : Fulfilled _ = Fulfilled _ |- _ =>
                injection H as <- end.
        -- match goal with H : lookup _ _ = JStr _ |- _ => rewrite H in Hs end.
           simpl in Hs. congruence.
        -- congruence.
        -- congruence.
        -- match goal with H : _ \/ _ |- _ => destruct H as [Hd | Hd] end;
             [apply Habsent in Hd; discriminate Hd | congruence].
        -- exfalso. match goal with H : forall f, _ <> JObj f |- _ =>
                      apply (H fields); reflexivity end.
    + split; [reflexivity|]; split; [reflexivity|].
      split; [|split; [|split; [|split; [|split; [|split]]]]]; intros;
        try discriminate;
        try match goal with H : Fulfilled _ = Fulfilled _ |- _ =>
              injection H as <- end.
      * match goal with H : lookup _ _ = JStr _ |- _ => rewrite H in Ht end.
        destruct d; [congruence | discriminate Ht].
      * congruence.
      * congruence.
      * reflexivity.
      * reflexivity.
  - destruct e as [message|value]; simpl.
    + split; [reflexivity|]; split; [reflexivity|].
      repeat split; intros; try discriminate.
      match goal with H : Rejected _ = Rejected _ |- _ => injection H as <- end.
      reflexivity.
    + destruct (ToString value) as [e|text] eqn:Hs; simpl;
        (split; [reflexivity|]); (split; [reflexivity|]);
        repeat split; intros; discriminate.
Qed.

Lemma error_response_message_witness :
  let network := fun _ : Request =>
    Fulfilled (ResNotOk (Fulfilled (JObj [("detail", JStr "post not found")]))) in
  let r := run network
               (fetchSentiment "https://www.reddit.com/r/wallstreetbets/comments/abc123/" 10)
               initial_view in
  error (final r) = Some "post not found" /\ loading (final r) = false.
Proof.
  intros network r.
  destruct (error_response_message
              "https://www.reddit.com/r/wallstreetbets/comments/abc123/"
              "https%3A%2F%2Fwww.reddit.com%2Fr%2Fwallstreetbets%2Fcomments%2Fabc123%2F"
              10 network initial_view
              (Fulfilled (JObj [("detail", JStr "post not found")]))
              eq_refl eq_refl eq_refl) as (Hl & _ & Hd & _).
  split; [|exact Hl].
  apply (Hd [("detail", JStr "post not found")] "post not found");
    [reflexivity | reflexivity | discriminate].
Defined.

(** C2, as stated, fails on a body that cannot be parsed: the message is
    the parser's, not "Failed to fetch sentiment". *)
Lemma unparseable_body_message :
  let network := fun _ : Request =>
    Fulfilled (ResNotOk (Rejected (ErrorObject "Unexpected end of JSON input"))) in
  let r := run network
               (fetchSentiment "https://www.reddit.com/r/wallstreetbets/comments/abc123/" 10)
               initial_view in
  requests r
  = [{| req_url := "https%3A%2F%2Fwww.reddit.com%2Fr%2Fwallstreetbets%2Fcomments%2Fabc123%2F";
        req_max_comments := 10 |}]
  /\ error (final r) = Some "Unexpected end of JSON input"
  /\ error (final r) <> Some "Failed to fetch sentiment".
Proof. repeat split. discriminate. Qed.

(** Three bodies and a reference at the edges of the cases above: a numeric
    [detail] is shown by its text, an object [detail] with a [toString]
    member of its own by the message of the failed conversion, and a
    reference with a lone surrogate never reaches the network. *)
Example numeric_detail_message :
  let network := fun _ : Request =>
    Fulfilled (ResNotOk (Fulfilled (JObj [("detail", JNum 404 "404")]))) in
  error (final (run network (fetchSentiment "https://www.reddit.com/r/x/" 10)
                    initial_view))
  = Some "404".
Proof. reflexivity. Qed.

Example unprintable_detail_message :
  let network := fun _ : Request =>
    Fulfilled (ResNotOk (Fulfilled (JObj [("detail", JObj [("toString", JNull)])]))) in
  error (final (run network (fetchSentiment "https://www.reddit.com/r/x/" 10)
                    initial_view))
  = Some "Cannot convert object to primitive value".
Proof. reflexivity. Qed.

Example lone_surrogate_reference :
  let reference :=
    "https://www.reddit.com/r/x/"
    ++ String (ascii_of_nat 237) (String (ascii_of_nat 160)
         (String (ascii_of_nat 128) "")) in
  let network := fun _ : Request =>
    Fulfilled (ResNotOk (Fulfilled (JObj [("detail", JStr "post not found")]))) in
  let r := run network (fetchSentiment reference 10) initial_view in
  validate reference = true
  /\ requests r = [] /\ frames r = []
  /\ error (final r) = Some "URI malformed" /\ loading (final r) = false.
Proof. repeat split. Qed.

(** C6. However a submission ends (a rejected reference, a reference that
    cannot be escaped, a response of either kind, a request that fails,
    anything thrown on the way), the loading flag is down when the routine
    is over. The routine returns, except when the value caught is not an
    [Error] and has no string form: then the handler itself throws, and the
    flag is down all the same. *)
Theorem loading_cleared (url : string) (maxComments : float)
  (network : Request -> Settled Response) (v : View) :
  loading (final (run network (fetchSentiment url maxComments) v)) = false
  /\ (completion (run network (fetchSentiment url maxComments) v) = Returned tt
      \/ exists value,
           ToString value = inl cannot_convert
           /\ completion (run network (fetchSentiment url maxComments) v)
              = Threw cannot_convert).
Proof.
  split.
  - unfold fetchSentiment. simpl. destruct (validate url); simpl.
    + apply finally_clears_loading.
    + reflexivity.
  - run_cases network; try (left; reflexivity);
      (right; eexists; split; [eassumption | reflexivity]).
Qed.

(** C7. A submission clears the data and the error before anything else:
    at every point where the routine waits the page shows neither, the
    state left by the synchronous part of the handler has no data, and at
    the end an error never stands beside data, also when the reference is
    rejected. An accepted reference that can be escaped sends one request,
    carrying it and the limit, from the cleared state; one that cannot be
    escaped sends none and ends with the error of the escape. *)
Theorem submit_clears_payloads (url : string) (maxComments : float)
  (network : Request -> Settled Response) (v : View) :
  let r := run network (fetchSentiment url maxComments) v in
  Forall (fun f => data f = None /\ error f = None /\ loading f = true) (frames r)
  /\ data (fst (advance (fetchSentiment url maxComments) v)) = None
  /\ (error (final r) <> None -> data (final r) = None)
  /\ (validate url = false -> data (final r) = None /\ error (final r) <> None)
  /\ (validate url = true ->
      forall encoded, encodeURIComponent url = inr encoded ->
      requests r = [{| req_url := encoded; req_max_comments := maxComments |}]
      /\ hd_error (frames r) = Some (apply_update (SetData None)
                                     (apply_update (SetError None)
                                        (apply_update (SetLoading true) v))))
  /\ (validate url = true ->
      forall e, encodeURIComponent url = inl e ->
      requests r = [] /\ frames r = []
      /\ data (final r) = None /\ error (final r) = Some "URI malformed").
Proof.
  run_cases network;
    (split; [repeat (constructor; simpl); auto|]);
    (split; [reflexivity|]);
    (split; [simpl; congruence|]);
    (split; [intros; try discriminate; split; simpl; congruence|]);
    (split; [intros Hv encoded He; try discriminate Hv; try discriminate He;
             injection He as <-; split; reflexivity|]);
    intros Hv e0 He; try discriminate Hv; try discriminate He; repeat split.
Qed.

(** ** The event loop *)

Lemma advance_ok (k : Async unit) (v : View) :
  loading_while_waiting k (loading v) ->
  match snd (advance k v) with
  | Some t => loading (fst (advance k v)) = true /\ task_ok t
  | None => True
  end.
Proof.
  revert v; induction k as [a|e|u k IH|req k IH|B b k IH]; intros v H; simpl in *.
  - exact I.
  - exact I.
  - apply IH. destruct u; exact H.
  - destruct H as [Hl H]. split; [exact Hl|]. intros r. rewrite <- Hl. apply H.
  - destruct H as [Hl H]. split; [exact Hl|]. rewrite <- Hl. exact H.
Qed.

Lemma fetchSentiment_ok (url : string) (maxComments : float) (ld : bool) :
  loading_while_waiting (fetchSentiment url maxComments) ld.
Proof.
  unfold fetchSentiment, encodeURIComponent, new_Error, String_, read_detail, lift.
  simpl. destruct (validate url); simpl; [|exact I].
  destruct (lone_surrogate url); simpl; [exact I|].
  split; [reflexivity|].
  intros [[[json|e]|[err|e]]|e]; simpl; try (split; [reflexivity|]); simpl;
    try match goal with err : JsValue |- _ => destruct err; simpl end;
    try match goal with |- context [truthy ?d] =>
          unfold js_or; destruct (truthy d); simpl end;
    try match goal with e : Thrown |- _ => destruct e; simpl end;
    to_string_cases;
    exact I.
Qed.

Lemma in_flight_length (l : list Task) :
  (List.length (in_flight l) <= List.length l)%nat.
Proof.
  induction l as [|[req k|B body k] l IH]; simpl; lia.
Qed.

Lemma only_one {A : Type} (l1 l2 : list A) (x : A) :
  (List.length (l1 ++ x :: l2)%list <= 1)%nat -> l1 = [] /\ l2 = [].
Proof.
  rewrite length_app. simpl. destruct l1, l2; simpl; intros H; try lia. auto.
Qed.

Lemma page_ok_after (v : View) (k : Async unit) (out : list Request) :
  loading_while_waiting k (loading v) ->
  page_ok {| view := fst (advance k v);
             waiting := task_list (snd (advance k v));
             outbound := out |}.
Proof.
  intros H. apply advance_ok in H. unfold page_ok. simpl.
  destruct (snd (advance k v)) as [t|]; simpl.
  - destruct H as [Hl Ht]. split; [|split].
    + constructor; [exact Ht | constructor].
    + simpl. lia.
    + intros _. exact Hl.
  - split; [|split].
    + constructor.
    + simpl. lia.
    + intros E. now elim E.
Qed.

Lemma resume_ok (k : Async unit) (p : Page) :
  loading_while_waiting k (loading (view p)) -> page_ok (resume [] [] k p).
Proof.
  intros H. unfold resume.
  pose proof (page_ok_after (view p) k (outbound p ++ request_of (snd (advance k (view p)))) H)
    as Hok.
  destruct (advance k (view p)) as [v t]. simpl in *.
  now rewrite app_nil_r.
Qed.

Lemma step_ok (p q : Page) : step p q -> page_ok p -> page_ok q.
Proof.
  intros Hstep (Hall & Hlen & Hload).
  destruct Hstep as [s p|n p|p|p l1 l2 req k r E|p l1 l2 B body k E].
  - repeat split; assumption.
  - repeat split; assumption.
  - unfold submit. destruct (disabled (view p)) eqn:D; [repeat split; assumption|].
    apply orb_false_iff in D as [Dl _].
    assert (E : waiting p = []).
    { destruct (waiting p); [reflexivity|].
      rewrite Hload in Dl; [discriminate | discriminate]. }
    pose proof (page_ok_after (view p)
                  (fetchSentiment (url (view p)) (maxComments (view p)))
                  (outbound p ++ request_of
                     (snd (advance (fetchSentiment (url (view p)) (maxComments (view p)))
                                   (view p))))
                  (fetchSentiment_ok _ _ _)) as Hok.
    destruct (advance _ (view p)) as [v t]. rewrite E. exact Hok.
  - rewrite E in Hlen, Hall, Hload.
    destruct (only_one _ _ _ Hlen) as [-> ->].
    apply resume_ok. rewrite Hload by discriminate.
    apply Forall_inv in Hall. apply Hall.
  - rewrite E in Hlen, Hall, Hload.
    destruct (only_one _ _ _ Hlen) as [-> ->].
    apply resume_ok. rewrite Hload by discriminate.
    apply Forall_inv in Hall. apply Hall.
Qed.

Lemma reachable_ok (p : Page) : reachable p -> page_ok p.
Proof.
  induction 1 as [|p q _ IH Hstep].
  - repeat split; [constructor | simpl; lia | intros H; now elim H].
  - now apply (step_ok p q).
Qed.

(** C8. In every state the page can reach, at most one routine waits and at
    most one request is in flight; while one waits the loading flag is up;
    and while the flag is up the submit button is disabled, so a submit
    changes nothing and sends no request. *)
Theorem single_flight (p : Page) :
  reachable p ->
  (List.length (waiting p) <= 1)%nat
  /\ (List.length (in_flight (waiting p)) <= 1)%nat
  /\ (waiting p <> [] -> loading (view p) = true)
  /\ (loading (view p) = true ->
      disabled (view p) = true /\ submit p = p
      /\ outbound (submit p) = outbound p).
Proof.
  intros H. destruct (reachable_ok p H) as (_ & Hlen & Hload).
  split; [exact Hlen|]. split; [|split; [exact Hload|]].
  - pose proof (in_flight_length (waiting p)). lia.
  - intros Hl. unfold submit, disabled. rewrite Hl. simpl. repeat split.
Qed.

Lemma single_flight_witness :
  let typed := {| view := setUrl "https://www.reddit.com/r/wallstreetbets/comments/abc123/"
                                 initial_view;
                  waiting := waiting initial_page;
                  outbound := outbound initial_page |} in
  let p := submit typed in
  loading (view p) = true
  /\ in_flight (waiting p)
     = [{| req_url := "https%3A%2F%2Fwww.reddit.com%2Fr%2Fwallstreetbets%2Fcomments%2Fabc123%2F";
           req_max_comments := 50 |}]
  /\ submit p = p
  /\ outbound (submit p) = outbound p.
Proof.
  intros typed p.
  assert (R : reachable p).
  { apply (reach_step typed).
    - apply (reach_step initial_page); [apply reach_initial | apply step_url].
    - apply step_submit. }
  destruct (single_flight p R) as (_ & _ & _ & H).
  destruct (H eq_refl) as (_ & Hs & Ho).
  split; [reflexivity|]. split; [reflexivity|]. split; assumption.
Defined.

(* ================================================================= *)
(** * Further properties *)

(** ** Escaping the reference *)

Lemma encodeURIComponent_returns (url encoded : string) :
  encodeURIComponent url = inr encoded ->
  lone_surrogate url = false /\ encoded = escape url.
Proof.
  unfold encodeURIComponent. destruct (lone_surrogate url); [discriminate|].
  intros H. now injection H as <-.
Qed.

Lemma percent_round_trip (c : ascii) (rest : string) :
  percent_decode (percent_encode c ++ rest) = c.
Proof. destruct c as [[] [] [] [] [] [] [] []]; reflexivity. Qed.

Lemma percent_encode_safe (c : ascii) :
  Forall (fun x => unreserved x = true \/ x = "%"%char)
         (list_ascii_of_string (percent_encode c)).
Proof.
  destruct c as [[] [] [] [] [] [] [] []];
    (constructor; [right; reflexivity|]);
    (constructor; [left; reflexivity|]);
    (constructor; [left; reflexivity|]); constructor.
Qed.

Lemma list_ascii_app (s t : string) :
  list_ascii_of_string (s ++ t)
  = (list_ascii_of_string s ++ list_ascii_of_string t)%list.
Proof. induction s as [|c s IH]; simpl; [reflexivity | now rewrite IH]. Qed.

Lemma escape_safe (s : string) :
  Forall (fun x => unreserved x = true \/ x = "%"%char)
         (list_ascii_of_string (escape s)).
Proof.
  induction s as [|c s IH]; [constructor|].
  cbn [escape]. destruct (unreserved c) eqn:E.
  - cbn [list_ascii_of_string]. constructor; auto.
  - rewrite list_ascii_app. apply Forall_app.
    split; [apply percent_encode_safe | exact IH].
Qed.

(** X1. Whatever the reference, what [encodeURIComponent] returns is made of
    unreserved characters and escapes only: none of the characters that
    delimit a query string ([&], [=], [#], [?], [+], [/], the space) occurs
    in it, so the reference cannot spill into the [max_comments]
    parameter that follows it in the address. *)
Theorem encoded_reference_has_no_delimiter (url encoded : string) :
  encodeURIComponent url = inr encoded ->
  Forall (fun c => (unreserved c = true \/ c = "%"%char)
                   /\ ~ In c (list_ascii_of_string "&=#?+/ "))
         (list_ascii_of_string encoded).
Proof.
  intros H. apply encodeURIComponent_returns in H as [_ ->].
  eapply Forall_impl; [|apply escape_safe].
  intros c H. split; [exact H|].
  intros Hin. simpl in Hin.
  destruct H as [H | ->].
  - repeat (destruct Hin as [<- | Hin]; [discriminate H|]). exact Hin.
  - repeat (destruct Hin as [Hin | Hin]; [discriminate Hin|]). exact Hin.
Qed.

Lemma encoded_reference_has_no_delimiter_witness :
  Forall (fun c => (unreserved c = true \/ c = "%"%char)
                   /\ ~ In c (list_ascii_of_string "&=#?+/ "))
         (list_ascii_of_string
            "https%3A%2F%2Fwww.reddit.com%2Fr%2Fwsb%2F%3Fx%3D1%26max_comments%3D9").
Proof.
  apply (encoded_reference_has_no_delimiter
           "https://www.reddit.com/r/wsb/?x=1&max_comments=9").
  reflexivity.
Defined.

Lemma append_cancel_l (p a b : string) : p ++ a = p ++ b -> a = b.
Proof.
  induction p as [|c p IH]; simpl; [auto|]. intros H. injection H as H. auto.
Qed.

Lemma escape_inj (u1 u2 : string) : escape u1 = escape u2 -> u1 = u2.
Proof.
  revert u2; induction u1 as [|a u1 IH]; intros [|b u2]; cbn [escape]; auto.
  - destruct (unreserved b); discriminate.
  - destruct (unreserved a); discriminate.
  - destruct (unreserved a) eqn:Ea; destruct (unreserved b) eqn:Eb; intros H.
    + injection H as -> H. now rewrite (IH _ H).
    + injection H as -> _. discriminate Ea.
    + injection H as <- _. discriminate Eb.
    + assert (a = b) as ->.
      { apply (f_equal percent_decode) in H. now rewrite !percent_round_trip in H. }
      apply append_cancel_l in H. now rewrite (IH _ H).
Qed.

(** X2. Escaping loses nothing: two references with the same escaped form
    are the same reference, so the request tells the server which reference
    was typed. *)
Theorem encoded_reference_determines_reference (u1 u2 encoded : string) :
  encodeURIComponent u1 = inr encoded ->
  encodeURIComponent u2 = inr encoded ->
  u1 = u2.
Proof.
  intros H1 H2.
  apply encodeURIComponent_returns in H1 as [_ H1].
  apply encodeURIComponent_returns in H2 as [_ H2].
  apply escape_inj. congruence.
Qed.

Lemma encoded_reference_determines_reference_witness :
  "https://www.reddit.com/r/wsb/?x=1" = "https://www.reddit.com/r/wsb/?x=1".
Proof.
  apply (encoded_reference_determines_reference _ _
           "https%3A%2F%2Fwww.reddit.com%2Fr%2Fwsb%2F%3Fx%3D1");
    reflexivity.
Defined.

Lemma starts_with_escaped (lit u : string) :
  all_unreserved lit = true ->
  starts_with lit (escape u) = starts_with lit u.
Proof.
  revert u; induction lit as [|a lit IH]; intros u Hlit; [reflexivity|].
  simpl in Hlit. apply andb_true_iff in Hlit as [Ha Hlit].
  destruct u as [|c u]; [reflexivity|]. cbn [escape].
  destruct (unreserved c) eqn:Ec.
  - simpl. now rewrite IH.
  - unfold percent_encode. simpl.
    replace (Ascii.eqb a c) with false
      by (symmetry; apply Ascii.eqb_neq; congruence).
    replace (Ascii.eqb a "%") with false
      by (symmetry; apply Ascii.eqb_neq; intros ->; discriminate Ha).
    reflexivity.
Qed.

Lemma no_marker_in_escape (c : ascii) (rest : string) :
  starts_with "reddit.com" (String (hex_digit (nat_of_ascii c / 16))
                              (String (hex_digit (nat_of_ascii c mod 16)) rest)) = false
  /\ starts_with "reddit.com" (String (hex_digit (nat_of_ascii c mod 16)) rest) = false.
Proof. destruct c as [[] [] [] [] [] [] [] []]; split; reflexivity. Qed.

Lemma includes_cons (c : ascii) (s sub : string) :
  includes (String c s) sub = starts_with sub (String c s) || includes s sub.
Proof. reflexivity. Qed.

Lemma percent_encode_append (c : ascii) (rest : string) :
  percent_encode c ++ rest
  = String "%" (String (hex_digit (nat_of_ascii c / 16))
                  (String (hex_digit (nat_of_ascii c mod 16)) rest)).
Proof. reflexivity. Qed.

Lemma escape_keeps_marker (url : string) :
  validate (escape url) = validate url.
Proof.
  unfold validate. induction url as [|c u IH]; [reflexivity|].
  pose proof (starts_with_escaped "reddit.com" (String c u) eq_refl) as Hsw.
  cbn [escape] in *. destruct (unreserved c) eqn:Ec.
  - now rewrite !includes_cons, Hsw, IH.
  - rewrite percent_encode_append in *.
    destruct (no_marker_in_escape c (escape u)) as [H1 H2].
    now rewrite !includes_cons, Hsw, H1, H2, IH.
Qed.

(** X3. Escaping neither hides nor forges the marker the page looks for:
    what [encodeURIComponent] returns contains "reddit.com" exactly when
    the reference does. *)
Theorem encoding_keeps_the_marker (url encoded : string) :
  encodeURIComponent url = inr encoded ->
  (contains encoded "reddit.com" <-> contains url "reddit.com").
Proof.
  intros H. apply encodeURIComponent_returns in H as [_ ->].
  rewrite <- !validate_spec. now rewrite escape_keeps_marker.
Qed.

Lemma encoding_keeps_the_marker_witness :
  contains "https%3A%2F%2Fwww.reddit.com%2Fr%2Fwsb%2F" "reddit.com"
  <-> contains "https://www.reddit.com/r/wsb/" "reddit.com".
Proof.
  apply (encoding_keeps_the_marker "https://www.reddit.com/r/wsb/"). reflexivity.
Defined.

Lemma string_app_assoc (a b c : string) : (a ++ b) ++ c = a ++ b ++ c.
Proof. induction a as [|x a IH]; simpl; [reflexivity | now rewrite IH]. Qed.

(** X4. The test of line 43 is closed under embedding: a string that
    contains an accepted reference anywhere is accepted, whatever surrounds
    it. *)
Theorem validate_embedding (rawInput pre post : string) :
  validate rawInput = true -> validate (pre ++ rawInput ++ post) = true.
Proof.
  rewrite !validate_spec. intros (a & b & ->).
  exists (pre ++ a), (b ++ post).
  now rewrite !string_app_assoc.
Qed.

Lemma validate_embedding_witness :
  validate ("https://example.com/?next=" ++ "reddit.com" ++ "&x=1") = true.
Proof. apply (validate_embedding "reddit.com"). reflexivity. Defined.

(** ** The order of the buckets *)

(** The order of two finite numbers of one sign is the order of their
    exponents, then of their mantissas; it is transitive, and for negative
    numbers it is the same order read backwards. *)
Lemma finite_order_trans (e1 e2 e3 : Z) (m1 m2 m3 : positive) :
  match (e1 ?= e2)%Z with
  | Eq => Pos.compare m1 m2
  | Lt => Lt
  | Gt => Gt
  end = Lt ->
  match (e2 ?= e3)%Z with
  | Eq => Pos.compare m2 m3
  | Lt => Lt
  | Gt => Gt
  end = Lt ->
  match (e1 ?= e3)%Z with
  | Eq => Pos.compare m1 m3
  | Lt => Lt
  | Gt => Gt
  end = Lt.
Proof.
  destruct (Z.compare_spec e1 e2) as [E1|E1|E1]; try discriminate;
    destruct (Z.compare_spec e2 e3) as [E2|E2|E2]; try discriminate;
    intros H1 H2.
  - subst. rewrite Z.compare_refl. apply Pos.compare_lt_iff.
    apply Pos.compare_lt_iff in H1, H2. now apply (Pos.lt_trans _ m2).
  - subst. now apply Z.compare_lt_iff in E2 as ->.
  - subst. now apply Z.compare_lt_iff in E1 as ->.
  - assert (E : (e1 < e3)%Z) by now apply (Z.lt_trans _ e2).
    now apply Z.compare_lt_iff in E as ->.
Qed.

Lemma negative_order (e1 e2 : Z) (m1 m2 : positive) :
  match (e1 ?= e2)%Z with
  | Eq => CompOpp (Pos.compare m1 m2)
  | Lt => Gt
  | Gt => Lt
  end
  = match (e2 ?= e1)%Z with
    | Eq => Pos.compare m2 m1
    | Lt => Lt
    | Gt => Gt
    end.
Proof.
  rewrite (Z.compare_antisym e1 e2), (Pos.compare_antisym m1 m2).
  now destruct (e1 ?= e2)%Z.
Qed.

Lemma is_Lt (c : comparison) :
  match c with Lt => true | _ => false end = true <-> c = Lt.
Proof. destruct c; split; congruence. Qed.

Ltac two_spec_floats a b :=
  destruct a as [s|s| |s m e]; destruct b as [s'|s'| |s' m' e'];
  try destruct s; try destruct s';
  cbv beta iota delta [SFltb SFcompare];
  try discriminate; try reflexivity;
  change (PosDef.Pos.compare_cont Eq) with Pos.compare;
  rewrite ?negative_order, !is_Lt.

(** Above a positive number is kept by going up, below a negative one by
    going down. *)
Lemma above_upward (mc : positive) (ec : Z) (a b : spec_float) :
  SFltb a b = true ->
  SFltb (S754_finite false mc ec) a = true ->
  SFltb (S754_finite false mc ec) b = true.
Proof.
  two_spec_floats a b. intros H1 H2.
  exact (finite_order_trans _ _ _ _ _ _ H2 H1).
Qed.

Lemma below_downward (mc : positive) (ec : Z) (a b : spec_float) :
  SFltb a b = true ->
  SFltb b (S754_finite true mc ec) = true ->
  SFltb a (S754_finite true mc ec) = true.
Proof.
  two_spec_floats a b. intros H1 H2.
  exact (finite_order_trans _ _ _ _ _ _ H2 H1).
Qed.

Lemma gt_upward (x y : float) :
  js_lt x y = true -> js_gt x 0.1 = true -> js_gt y 0.1 = true.
Proof.
  unfold js_gt, js_lt. rewrite !ltb_spec, Prim2SF_tenth. apply above_upward.
Qed.

Lemma lt_downward (x y : float) :
  js_lt x y = true -> js_lt y (-0.1) = true -> js_lt x (-0.1) = true.
Proof.
  unfold js_gt, js_lt. rewrite !ltb_spec, Prim2SF_minus_tenth. apply below_downward.
Qed.

(** X5. The classes follow the order of the numbers: of two sentiments the
    greater is never in a lower bucket. If the smaller gets the green class
    so does the greater, and if the greater gets the red class so does the
    smaller. *)
Theorem classify_monotone (x y : float) :
  js_lt x y = true ->
  (rank (classify x) <= rank (classify y))%nat
  /\ (sentimentClass x = "bg-green-900 border-green-600" ->
      sentimentClass y = "bg-green-900 border-green-600")
  /\ (sentimentClass y = "bg-red-900 border-red-600" ->
      sentimentClass x = "bg-red-900 border-red-600").
Proof.
  intros H. pose proof (gt_upward x y H) as Hup.
  pose proof (lt_downward x y H) as Hdown.
  pose proof (gt_not_lt y) as Hy.
  unfold classify, sentimentClass.
  destruct (js_gt x 0.1).
  - rewrite Hup by reflexivity. repeat split; intros; try discriminate. simpl. lia.
  - destruct (js_gt y 0.1).
    + destruct (js_lt x (-0.1)); repeat split; intros; try discriminate; simpl; lia.
    + destruct (js_lt y (-0.1)).
      * rewrite Hdown by reflexivity.
        repeat split; intros; try discriminate. simpl. lia.
      * destruct (js_lt x (-0.1)); repeat split; intros; try discriminate;
          simpl; lia.
Qed.

Lemma classify_monotone_witness :
  (rank (classify (-0.3)) <= rank (classify 0.05))%nat
  /\ (rank (classify 0.05) <= rank (classify 0.7))%nat.
Proof.
  split.
  - apply (proj1 (classify_monotone (-0.3) 0.05 eq_refl)).
  - apply (proj1 (classify_monotone 0.05 0.7 eq_refl)).
Defined.

Lemma opposite_above (mc : positive) (ec : Z) (a : spec_float) :
  SFltb (S754_finite false mc ec) (SFopp a) = SFltb a (S754_finite true mc ec).
Proof.
  destruct a as [s|s| |s m e]; try destruct s;
    cbv beta iota delta [SFltb SFcompare SFopp negb]; try reflexivity.
  change (PosDef.Pos.compare_cont Eq) with Pos.compare.
  now rewrite negative_order.
Qed.

Lemma opposite_below (mc : positive) (ec : Z) (a : spec_float) :
  SFltb (SFopp a) (S754_finite true mc ec) = SFltb (S754_finite false mc ec) a.
Proof.
  destruct a as [s|s| |s m e]; try destruct s;
    cbv beta iota delta [SFltb SFcompare SFopp negb]; try reflexivity.
  change (PosDef.Pos.compare_cont Eq) with Pos.compare.
  now rewrite negative_order.
Qed.

(** X6. The thresholds are symmetric: the opposite number gets the class
    of the opposite bucket. *)
Theorem classify_opposite (x : float) :
  classify (- x) = mirror (classify x)
  /\ sentimentClass (- x) = bucket_class (mirror (classify x)).
Proof.
  assert (H : classify (- x) = mirror (classify x)).
  { pose proof (gt_not_lt x) as Hx.
    unfold classify, js_gt, js_lt in *.
    rewrite !ltb_spec, opp_spec, Prim2SF_tenth, Prim2SF_minus_tenth in *.
    rewrite opposite_above, opposite_below.
    destruct (SFltb (S754_finite false 7205759403792794 (-56)) (Prim2SF x)) eqn:Hg.
    - now rewrite Hx.
    - now destruct (SFltb (Prim2SF x) (S754_finite true 7205759403792794 (-56))). }
  split; [exact H|]. now rewrite sentimentClass_classify, H.
Qed.

(** ** The list of comments on screen *)

Lemma rendered_keys (comments : list Comment.t) :
  map key (rendered_list comments) = map Comment.id (filter comments).
Proof.
  unfold rendered_list, filter, retained.
  induction comments as [|c cs IH]; simpl; [reflexivity|].
  destruct (renderComment c) as [li|] eqn:E; simpl; [|exact IH].
  rewrite IH. f_equal. unfold renderComment in E.
  destruct (regexp_test _ _); [discriminate|].
  destruct (_ || _); [discriminate|]. now injection E as <-.
Qed.

Lemma rendered_length (comments : list Comment.t) :
  List.length (rendered_list comments) = List.length (filter comments).
Proof. now rewrite <- rendered_list_filter, length_map. Qed.

(** X7. Keys stay distinct: when the comments of a response have distinct
    ids, the items of the list have distinct keys, each the id of its
    comment. *)
Theorem rendered_keys_distinct (comments : list Comment.t) :
  NoDup (map Comment.id comments) ->
  NoDup (map key (rendered_list comments))
  /\ map key (rendered_list comments) = map Comment.id (map shown (rendered_list comments)).
Proof.
  intros H. split; [|now rewrite rendered_keys, rendered_list_filter].
  rewrite rendered_keys. unfold filter.
  induction comments as [|c cs IH]; simpl; [constructor|].
  inversion H as [|x l Hnotin Hrest]; subst.
  destruct (retained c); [|now apply IH].
  simpl. constructor; [|now apply IH].
  intros Hin. apply Hnotin. apply in_map_iff in Hin as (c' & Hid & Hin).
  apply filter_In in Hin as [Hin _]. apply in_map_iff. now exists c'.
Qed.

Lemma rendered_keys_distinct_witness :
  let a := Comment.mk "c1" "Rules" 0 1 "AutoModerator" 0 in
  let b := Comment.mk "c2" "Calls" 0.5 3 "trader42" 0 in
  let c := Comment.mk "c3" "Puts" (-0.5) 2 "ape7" 0 in
  NoDup (map key (rendered_list [a; b; c]))
  /\ map key (rendered_list [a; b; c])
     = map Comment.id (map shown (rendered_list [a; b; c])).
Proof.
  intros a b c. apply (rendered_keys_distinct [a; b; c]).
  simpl. repeat constructor; simpl; intuition discriminate.
Defined.

(** X8. The list never grows: it has at most as many items as the response
    has comments, it is empty exactly when every comment is noise, and it
    is as long as the response exactly when none is. *)
Theorem rendered_count (comments : list Comment.t) :
  (List.length (rendered_list comments) <= List.length comments)%nat
  /\ (rendered_list comments = [] <-> Forall noise comments)
  /\ (List.length (rendered_list comments) = List.length comments
      <-> Forall (fun c => ~ noise c) comments).
Proof.
  split; [|split].
  - rewrite rendered_length. apply filter_length_le.
  - rewrite <- length_zero_iff_nil, rendered_length. unfold filter.
    induction comments as [|c cs IH]; simpl.
    + split; [constructor | reflexivity].
    + destruct (retained c) eqn:E; simpl.
      * split; [discriminate|]. intros H. inversion H; subst.
        apply retained_spec in H2. congruence.
      * rewrite IH. split; intros H.
        -- constructor; [now apply retained_spec | exact H].
        -- now inversion H.
  - rewrite rendered_length. unfold filter.
    induction comments as [|c cs IH]; simpl.
    + split; [constructor | reflexivity].
    + pose proof (filter_length_le retained cs) as Hle.
      destruct (retained c) eqn:E; simpl.
      * split; intros H.
        -- constructor; [now apply retained_true|]. apply IH. lia.
        -- inversion H; subst. f_equal. now apply IH.
      * split; intros H; [lia|]. inversion H; subst.
        apply retained_true in H2. congruence.
Qed.

(** ** The state and the screen at the end of a submission *)





(** ** The shapes of the page in the event loop *)

Lemma advance_good (k : Async unit) (v : View) :
  resumes_well k (loading v) (data v) (error v) ->
  match snd (advance k v) with
  | None => rest_shape (fst (advance k v))
  | Some t => loading_shape (fst (advance k v)) /\ task_good t
              /\ request_of (Some t) = []
  end.
Proof.
  revert v; induction k as [a|e|u k IH|req k IH|B b k IH]; intros v H; simpl in *.
  - exact H.
  - exact H.
  - apply IH. destruct u; exact H.
  - contradiction.
  - destruct H as [(Hl & Hd & He) H]. repeat split; auto.
    now rewrite Hl, Hd, He in H.
Qed.

Lemma fetchSentiment_start (u : string) (m : float) (v : View) :
  match snd (advance (fetchSentiment u m) v) with
  | None => rest_shape (fst (advance (fetchSentiment u m) v))
  | Some t =>
      validate u = true
      /\ encodeURIComponent u = inr (escape u)
      /\ loading_shape (fst (advance (fetchSentiment u m) v))
      /\ task_good t
      /\ request_of (Some t) = [{| req_url := escape u; req_max_comments := m |}]
      /\ in_flight [t] = [{| req_url := escape u; req_max_comments := m |}]
  end.
Proof.
  unfold fetchSentiment, encodeURIComponent, new_Error, String_, read_detail, lift.
  simpl. destruct (validate u) eqn:Hv; simpl.
  - destruct (lone_surrogate u) eqn:Hl; simpl.
    + split; [reflexivity | now left].
    + repeat split; auto.
      intros [[[json|e]|[err|e]]|e]; simpl; repeat split;
        try match goal with err : JsValue |- _ => destruct err; simpl end;
        try match goal with |- context [truthy ?d] =>
              unfold js_or; destruct (truthy d); simpl end;
        try match goal with e : Thrown |- _ => destruct e; simpl end;
        to_string_cases;
        auto.
  - split; [reflexivity | now left].
Qed.

Lemma one_waiting (l1 l2 : list Task) (t : Task) (P : Task -> Prop) (Q R : Prop) :
  match (l1 ++ t :: l2)%list with
  | [] => R
  | [t'] => Q /\ P t'
  | _ => False
  end -> l1 = [] /\ l2 = [] /\ Q /\ P t.
Proof.
  destruct l1 as [|a [|b l1]]; simpl.
  - destruct l2; [tauto | contradiction].
  - contradiction.
  - contradiction.
Qed.

Lemma resume_shape (k : Async unit) (p : Page) :
  Forall from_accepted_reference (outbound p) ->
  resumes_well k (loading (view p)) (data (view p)) (error (view p)) ->
  page_shape (resume [] [] k p) /\ outbound (resume [] [] k p) = outbound p.
Proof.
  intros Hout H. apply advance_good in H. unfold resume, page_shape.
  destruct (advance k (view p)) as [v [t|]]; simpl in *.
  - destruct H as (Hs & Ht & Hr). rewrite Hr, app_nil_r. auto.
  - rewrite app_nil_r. auto.
Qed.

Lemma submit_shape (p : Page) :
  page_shape p ->
  page_shape (submit p)
  /\ (outbound (submit p) = outbound p
      \/ (waiting p = []
          /\ validate (url (view p)) = true
          /\ encodeURIComponent (url (view p)) = inr (escape (url (view p)))
          /\ outbound (submit p)
             = (outbound p ++ [{| req_url := escape (url (view p));
                                  req_max_comments := maxComments (view p) |}])%list
          /\ in_flight (waiting (submit p))
             = [{| req_url := escape (url (view p));
                   req_max_comments := maxComments (view p) |}])).
Proof.
  intros [Hout Hw]. unfold submit.
  destruct (disabled (view p)) eqn:D; [split; [split; assumption | now left]|].
  apply orb_false_iff in D as [Dl _].
  assert (E : waiting p = []).
  { destruct (waiting p) as [|t [|t' l]]; [reflexivity| |contradiction].
    destruct Hw as [(Hl & _) _]. congruence. }
  pose proof (fetchSentiment_start (url (view p)) (maxComments (view p)) (view p)) as H.
  destruct (advance _ (view p)) as [v [t|]]; simpl in H; rewrite E; simpl.
  - destruct H as (Hv & He & Hs & Ht & Hr & Hf). simpl in Hr. split.
    + split; simpl; [|auto]. apply Forall_app. split; [exact Hout|].
      rewrite Hr. constructor; [|constructor].
      exists (url (view p)). now split.
    + right. rewrite Hr. auto.
  - rewrite app_nil_r. split; [split; assumption | now left].
Qed.

Lemma step_shape (p q : Page) :
  step p q -> page_shape p ->
  page_shape q
  /\ (outbound q = outbound p
      \/ (waiting p = []
          /\ validate (url (view p)) = true
          /\ encodeURIComponent (url (view p)) = inr (escape (url (view p)))
          /\ outbound q
             = (outbound p ++ [{| req_url := escape (url (view p));
                                  req_max_comments := maxComments (view p) |}])%list
          /\ in_flight (waiting q)
             = [{| req_url := escape (url (view p));
                   req_max_comments := maxComments (view p) |}])).
Proof.
  intros Hstep Hp.
  destruct Hstep as [s p|n p|p|p l1 l2 req k r E|p l1 l2 B body k E].
  - split; [exact Hp | now left].
  - split; [exact Hp | now left].
  - now apply submit_shape.
  - destruct Hp as [Hout Hw]. rewrite E in Hw.
    apply (one_waiting l1 l2 _ task_good) in Hw as (-> & -> & (Hl & Hd & He) & Hk).
    destruct (resume_shape (k r) p Hout) as [Hs Ho].
    + rewrite Hl, Hd, He. apply Hk.
    + split; [exact Hs | now left].
  - destruct Hp as [Hout Hw]. rewrite E in Hw.
    apply (one_waiting l1 l2 _ task_good) in Hw as (-> & -> & (Hl & Hd & He) & Hk).
    destruct (resume_shape (k body) p Hout) as [Hs Ho].
    + rewrite Hl, Hd, He. apply Hk.
    + split; [exact Hs | now left].
Qed.

Lemma reachable_shape (p : Page) : reachable p -> page_shape p.
Proof.
  induction 1 as [|p q _ IH Hstep].
  - split; [constructor|]. simpl. split; [reflexivity | now left].
  - now apply (step_shape p q).
Qed.

Lemma reachable_submitted (s : string) :
  reachable (submit (type_url s initial_page)).
Proof.
  apply (reach_step (type_url s initial_page)); [|apply step_submit].
  apply (reach_step initial_page); [apply reach_initial | apply step_url].
Qed.

(** X11. The page is always in one of four states: idle, loading, showing a
    result, or showing an error. While the flag is up there is neither data
    nor an error; data and an error are never held together. *)
Theorem page_states (p : Page) :
  reachable p ->
  (loading (view p) = true -> data (view p) = None /\ error (view p) = None)
  /\ (data (view p) <> None -> error (view p) = None /\ loading (view p) = false)
  /\ (error (view p) <> None -> data (view p) = None /\ loading (view p) = false).
Proof.
  intros H. destruct (reachable_shape p H) as [_ Hw].
  destruct (waiting p) as [|t [|t' l]]; [| |contradiction].
  - destruct Hw as [Hl [Hd | He]]; rewrite Hl, ?Hd, ?He;
      repeat split; intros; try congruence;
      destruct (data (view p)), (error (view p)); congruence.
  - destruct Hw as [(Hl & Hd & He) _]. rewrite Hl, Hd, He.
    repeat split; congruence.
Qed.

Lemma page_states_witness :
  let p := submit (type_url "https://www.reddit.com/r/wallstreetbets/comments/abc123/"
                            initial_page) in
  loading (view p) = true /\ data (view p) = None /\ error (view p) = None.
Proof.
  intros p. split; [reflexivity|].
  apply (proj1 (page_states p (reachable_submitted _))). reflexivity.
Defined.

(** X12. The flag is up exactly while a routine waits: the page never shows
    "Analyzing..." with nothing pending, and never waits with the button
    enabled. *)
Theorem loading_iff_waiting (p : Page) :
  reachable p ->
  (loading (view p) = true <-> waiting p <> [])
  /\ (button_label (render (view p)) = "Analyzing..." <-> waiting p <> [])
  /\ (waiting p <> [] -> button_disabled (render (view p)) = true).
Proof.
  intros H. destruct (reachable_shape p H) as [_ Hw]. unfold render, disabled. simpl.
  destruct (waiting p) as [|t [|t' l]]; [| |contradiction].
  - destruct Hw as [Hl _]. rewrite Hl. repeat split; intros; congruence.
  - destruct Hw as [(Hl & _) _]. rewrite Hl. repeat split; intros; congruence.
Qed.

Lemma loading_iff_waiting_witness :
  let p := submit (type_url "https://example.com/post/1" initial_page) in
  waiting p = [] /\ (loading (view p) = true <-> waiting p <> []).
Proof.
  intros p. split; [reflexivity|].
  apply (proj1 (loading_iff_waiting p (reachable_submitted _))).
Defined.

(** X13. Every request the page has ever sent was made for a reference
    that passed the test of line 43 and could be escaped, and the escaped
    reference it carries still contains "reddit.com": no sequence of edits
    and submits sends anything else. *)
Theorem requests_are_validated (p : Page) :
  reachable p ->
  Forall (fun req => (exists url, contains url "reddit.com"
                                  /\ encodeURIComponent url = inr (req_url req))
                     /\ contains (req_url req) "reddit.com")
         (outbound p).
Proof.
  intros H. destruct (reachable_shape p H) as [Hout _].
  eapply Forall_impl; [|exact Hout].
  intros req (url & Hv & He). split.
  - exists url. split; [now apply validate_spec | exact He].
  - apply encodeURIComponent_returns in He as [_ He]. rewrite He.
    apply validate_spec. now rewrite escape_keeps_marker.
Qed.

Lemma requests_are_validated_witness :
  let p := submit (type_url "https://www.reddit.com/r/wallstreetbets/comments/abc123/"
                            initial_page) in
  List.length (outbound p) = 1%nat
  /\ Forall (fun req => (exists url, contains url "reddit.com"
                                     /\ encodeURIComponent url = inr (req_url req))
                        /\ contains (req_url req) "reddit.com")
            (outbound p).
Proof.
  intros p. split; [reflexivity|].
  apply (requests_are_validated p (reachable_submitted _)).
Defined.

(** X14. Nothing is sent again: an event either sends no request, or it is a
    submit on a page where nothing waits, for a reference that passes the
    test and can be escaped, and it sends one request, carrying the escaped
    reference and the limit on the page at that moment, which is then the
    one in flight. A settling promise never sends a request. *)
Theorem one_request_per_submit (p q : Page) :
  reachable p -> step p q ->
  outbound q = outbound p
  \/ (waiting p = []
      /\ validate (url (view p)) = true
      /\ encodeURIComponent (url (view p)) = inr (escape (url (view p)))
      /\ outbound q
         = (outbound p ++ [{| req_url := escape (url (view p));
                              req_max_comments := maxComments (view p) |}])%list
      /\ in_flight (waiting q)
         = [{| req_url := escape (url (view p));
               req_max_comments := maxComments (view p) |}]).
Proof.
  intros H Hstep. apply (step_shape p q Hstep). now apply reachable_shape.
Qed.

Lemma one_request_per_submit_witness :
  let p := type_url "https://www.reddit.com/r/wallstreetbets/comments/abc123/"
                    initial_page in
  outbound (submit p) = outbound p
  \/ (waiting p = []
      /\ validate (url (view p)) = true
      /\ encodeURIComponent (url (view p)) = inr (escape (url (view p)))
      /\ outbound (submit p)
         = (outbound p ++ [{| req_url := escape (url (view p));
                              req_max_comments := maxComments (view p) |}])%list
      /\ in_flight (waiting (submit p))
         = [{| req_url := escape (url (view p));
               req_max_comments := maxComments (view p) |}]).
Proof.
  intros p. apply (one_request_per_submit p (submit p)); [|apply step_submit].
  apply (reach_step initial_page); [apply reach_initial | apply step_url].
Defined.
